(** * Tesla Casting Lookup: the Data Service and the Presentation Layer

    A shallow embedding of [main.py] (FastAPI service over the SQLite table
    [castings]), of the two copies of [web_app.py] (Flask front end) and of
    the loader [db_setup.py], with the properties of the specification and
    further properties of the code stated over it.

    Conventions.
    - A Python [str] is a Rocq [string]; each [ascii] stands for one
      character (code points 0..255).  SQLite's BINARY collation orders text
      by code point, which is [String.compare].
    - A Python [int] is a [Z]; SQLite stores and binds integers on 64 bits.
    - Handlers run in a state-and-exception monad over an explicit world:
      the table, the connections that are open, the statements executed and
      the local variable [conn] of the running handler. *)

From Stdlib Require Import Bool Arith ZArith Lia List Ascii String.
From Stdlib Require Import Sorting.Sorted Sorting.Permutation.
From Stdlib Require Import DecimalString DecimalPos DecimalZ.
Import ListNotations.

Local Open Scope string_scope.
Local Open Scope Z_scope.

(** ** Text *)

Module Text.

(** [str.lower] restricted to ASCII, the folding SQLite's LIKE applies. *)
Definition is_upper (c : ascii) : bool :=
  let n := N_of_ascii c in (65 <=? n)%N && (n <=? 90)%N.

Definition lower (c : ascii) : ascii :=
  if is_upper c then ascii_of_N (N_of_ascii c + 32) else c.

Definition eqb_nocase (c d : ascii) : bool := Ascii.eqb (lower c) (lower d).

Fixpoint fold_case (s : string) : string :=
  match s with
  | EmptyString => EmptyString
  | String c s' => String (lower c) (fold_case s')
  end.

(** Python's [str.isspace] on one character of the range 0..255. *)
Definition is_space (c : ascii) : bool :=
  let n := N_of_ascii c in
  ((9 <=? n)%N && (n <=? 13)%N) || ((28 <=? n)%N && (n <=? 32)%N)
  || (n =? 133)%N || (n =? 160)%N.

Fixpoint lstrip (s : string) : string :=
  match s with
  | EmptyString => EmptyString
  | String c s' => if is_space c then lstrip s' else s
  end.

(** Drops trailing whitespace: a character is kept when it is not a space or
    when something is kept after it. *)
Fixpoint rstrip (s : string) : string :=
  match s with
  | EmptyString => EmptyString
  | String c s' =>
      match rstrip s' with
      | EmptyString => if is_space c then EmptyString else String c EmptyString
      | t => String c t
      end
  end.

(** [str.strip()] *)
Definition strip (s : string) : string := rstrip (lstrip s).

(** Nothing but whitespace. *)
Fixpoint all_space (s : string) : bool :=
  match s with
  | EmptyString => true
  | String c s' => is_space c && all_space s'
  end.

(** [str(n)] for an [int]. *)
Definition str_of_int (n : Z) : string := NilEmpty.string_of_int (Z.to_int n).

Fixpoint mem_char (c : ascii) (s : string) : bool :=
  match s with
  | EmptyString => false
  | String d s' => Ascii.eqb c d || mem_char c s'
  end.

(** *** SQLite's LIKE

    The operands reach the comparison as C strings: each is read up to its
    first NUL character.  [%] matches any run of characters, [_] exactly
    one character, any other character matches itself up to ASCII case.  No
    ESCAPE clause is used by the service, so both wildcards are always
    active.  (A pattern of more than 50000 bytes is refused by the engine
    with an sqlite3.Error; see [pattern_bytes].) *)

Definition is_nul (c : ascii) : bool := Ascii.eqb c zero.

(** The text before the first NUL character. *)
Fixpoint c_string (s : string) : string :=
  match s with
  | EmptyString => EmptyString
  | String c s' => if is_nul c then EmptyString else String c (c_string s')
  end.

(** No NUL character. *)
Fixpoint nul_free (s : string) : bool :=
  match s with
  | EmptyString => true
  | String c s' => negb (is_nul c) && nul_free s'
  end.

(** The bytes of the UTF-8 encoding: one for a character below 128, two
    for the others of the range. *)
Fixpoint utf8_length (s : string) : nat :=
  match s with
  | EmptyString => 0%nat
  | String c s' =>
      ((if (N_of_ascii c <? 128)%N then 1 else 2) + utf8_length s')%nat
  end.

(** SQLITE_MAX_LIKE_PATTERN_LENGTH *)
Definition max_like_pattern : Z := 50000.

(** The bytes of the pattern [%q%]. *)
Definition pattern_bytes (q : string) : Z := Z.of_nat (utf8_length q) + 2.

(** The comparison proper, character by character. *)
Fixpoint pattern_compare (pat s : string) : bool :=
  match pat with
  | EmptyString => match s with EmptyString => true | _ => false end
  | String p pat' =>
      if Ascii.eqb p "%" then
        (fix skip (t : string) : bool :=
           pattern_compare pat' t ||
           match t with
           | EmptyString => false
           | String _ t' => skip t'
           end) s
      else
        match s with
        | EmptyString => false
        | String c s' =>
            (Ascii.eqb p "_" || eqb_nocase p c) && pattern_compare pat' s'
        end
  end.

(** [s LIKE pat] *)
Definition like (pat s : string) : bool :=
  pattern_compare (c_string pat) (c_string s).

(** A NULL operand makes LIKE NULL, which a WHERE clause does not keep. *)
Definition like_null (pat : string) (v : option string) : bool :=
  match v with
  | None => false
  | Some s => like pat s
  end.

(** *** Substring containment, as the specification words it *)

(** [q] is a prefix of [s] up to ASCII case. *)
Fixpoint iprefix (q s : string) : bool :=
  match q, s with
  | EmptyString, _ => true
  | String _ _, EmptyString => false
  | String c q', String d s' => eqb_nocase c d && iprefix q' s'
  end.

(** [q] occurs somewhere in [s] up to ASCII case. *)
Fixpoint icontains (q s : string) : bool :=
  iprefix q s ||
  match s with
  | EmptyString => false
  | String _ s' => icontains q s'
  end.

Definition icontains_null (q : string) (v : option string) : bool :=
  match v with
  | None => false
  | Some s => icontains q s
  end.

(** The characters LIKE treats as wildcards. *)
Definition has_wildcard (q : string) : bool := mem_char "%" q || mem_char "_" q.

End Text.

(** ** The store: table [castings] of castings.db *)

Module Store.

(** One row of the table, by the schema of [db_setup.py]: every column is
    TEXT NOT NULL but [comments], which is nullable. *)
Record record := mk_record {
  casting : string;
  years : string;
  cid : string;
  low_power : string;
  high_power : string;
  main_caps : string;
  comments : option string
}.

(** A value as sqlite3 hands it to Python. *)
Inductive value :=
| VNull
| VInt (n : Z)
| VText (s : string).

Definition tuple := list value.

Definition nullable (v : option string) : value :=
  match v with
  | None => VNull
  | Some s => VText s
  end.

(** [row[i]] *)
Definition item (row : tuple) (i : nat) : value := nth i row VNull.

(** SELECT casting, years, cid, low_power, high_power, main_caps, comments *)
Definition select_all (r : record) : tuple :=
  [VText (casting r); VText (years r); VText (cid r); VText (low_power r);
   VText (high_power r); VText (main_caps r); nullable (comments r)].

(** SELECT casting, years, cid *)
Definition select_summary (r : record) : tuple :=
  [VText (casting r); VText (years r); VText (cid r)].

(** *** ORDER BY casting *)

Fixpoint insert_by_casting (r : record) (l : list record) : list record :=
  match l with
  | [] => [r]
  | x :: l' =>
      if String.leb (casting r) (casting x) then r :: l
      else x :: insert_by_casting r l'
  end.

Fixpoint order_by_casting (l : list record) : list record :=
  match l with
  | [] => []
  | r :: l' => insert_by_casting r (order_by_casting l')
  end.

(** LIMIT ? OFFSET ?: a negative limit means no limit, a negative offset
    means none. *)
Definition limit_offset {A} (limit offset : Z) (l : list A) : list A :=
  let rest := skipn (Z.to_nat offset) l in
  if limit <? 0 then rest else firstn (Z.to_nat limit) rest.

(** *** Statements *)

Inductive statement :=
| SelectByCasting (key : string)
    (* SELECT <all> FROM castings WHERE casting = ? *)
| SelectCount
    (* SELECT COUNT( * ) FROM castings *)
| SelectPage (limit offset : Z)
    (* SELECT casting, years, cid FROM castings ORDER BY casting LIMIT ? OFFSET ? *)
| SelectLike (p_casting p_cid p_years p_comments : string)
    (* SELECT <all> FROM castings WHERE casting LIKE ? OR cid LIKE ?
       OR years LIKE ? OR comments LIKE ? ORDER BY casting *)
| InsertOrIgnore (r : record).
    (* INSERT OR IGNORE INTO castings (...) VALUES (?, ?, ?, ?, ?, ?, ?) *)

Definition has_key (key : string) (table : list record) : bool :=
  existsb (fun r => String.eqb (casting r) key) table.

Definition like_row (p_casting p_cid p_years p_comments : string) (r : record) : bool :=
  Text.like p_casting (casting r) || Text.like p_cid (cid r)
  || Text.like p_years (years r) || Text.like_null p_comments (comments r).

(** The rows a statement yields. *)
Definition query (st : statement) (table : list record) : list tuple :=
  match st with
  | SelectByCasting key =>
      map select_all (filter (fun r => String.eqb (casting r) key) table)
  | SelectCount => [[VInt (Z.of_nat (List.length table))]]
  | SelectPage limit offset =>
      map select_summary (limit_offset limit offset (order_by_casting table))
  | SelectLike a b c d =>
      map select_all (filter (like_row a b c d) (order_by_casting table))
  | InsertOrIgnore _ => []
  end.

(** The table a statement leaves. *)
Definition update (st : statement) (table : list record) : list record :=
  match st with
  | InsertOrIgnore r => if has_key (casting r) table then table else table ++ [r]
  | _ => table
  end.

(** sqlite3 binds a Python int as a signed 64-bit integer and raises
    OverflowError on one that does not fit. *)
Definition max_int64 : Z := 9223372036854775807.
Definition fits_int64 (n : Z) : bool := (- max_int64 - 1 <=? n) && (n <=? max_int64).

Definition bindable (st : statement) : bool :=
  match st with
  | SelectPage limit offset => fits_int64 limit && fits_int64 offset
  | _ => true
  end.

(** The inserts of [db_setup.setup_database] for rows that have a text in
    the key and in each column declared NOT NULL, over a table without NULL
    keys: the rows are inserted one by one, a row whose key is already
    there being ignored. [DbSetup] has the loader itself. *)
Definition setup_database (csv : list record) (table : list record) : list record :=
  fold_left (fun t r => update (InsertOrIgnore r) t) csv table.

Definition keys (table : list record) : list string := map casting table.

(** PRIMARY KEY: no two rows share a casting. *)
Definition unique_keys (table : list record) : Prop := NoDup (keys table).

End Store.

(** ** The Data Service: main.py

    The copy under src/ has the same code, comments apart. *)

Module DataService.
Import Store.

(** *** The world a handler runs in *)

Record world := mk_world {
  table : list record;                         (* rows of castings, by rowid *)
  connect_fault : option string;               (* sqlite3.connect raises sqlite3.Error *)
  execute_fault : statement -> option string;  (* cursor.execute raises sqlite3.Error *)
  open_conns : list nat;                       (* connections opened and not closed *)
  next_conn : nat;
  executed : list statement                    (* statements run, oldest first *)
}.

(** The world together with the handler's local variable [conn]. *)
Record state := mk_state {
  env : world;
  conn : option nat
}.

Inductive exn :=
| HTTPException (status_code : Z) (detail : string)
| RequestValidationError
| SqliteError (msg : string)
| OverflowError
| UnboundLocalError (name : string)
| TypeError.

Inductive result (A : Type) :=
| Return (a : A)
| Raise (e : exn).
Arguments Return {A} a.
Arguments Raise {A} e.

Definition M (A : Type) : Type := state -> result A * state.

Definition ret {A} (a : A) : M A := fun s => (Return a, s).
Definition raise {A} (e : exn) : M A := fun s => (Raise e, s).
Definition bind {A B} (m : M A) (k : A -> M B) : M B :=
  fun s =>
    match m s with
    | (Return a, s') => k a s'
    | (Raise e, s') => (Raise e, s')
    end.

Notation "x <- m ;; k" := (bind m (fun x => k))
  (at level 61, m at next level, right associativity).
Notation "m ;;; k" := (bind m (fun _ => k))
  (at level 61, right associativity).

(** [try: body  except sqlite3.Error as e: handler  finally: final].
    An exception raised by [final] replaces whatever was pending. *)
Definition try_except_finally {A} (body : M A) (handler : string -> M A)
    (final : M unit) : M A :=
  fun s =>
    let '(r, s1) := body s in
    let '(r', s2) :=
      match r with
      | Raise (SqliteError msg) => handler msg s1
      | _ => (r, s1)
      end in
    match final s2 with
    | (Return _, s3) => (r', s3)
    | (Raise e, s3) => (Raise e, s3)
    end.

Definition set_env (w : world) (s : state) : state := mk_state w (conn s).

(** [conn = sqlite3.connect('castings.db')] *)
Definition connect : M unit :=
  fun s =>
    let w := env s in
    match connect_fault w with
    | Some msg => (Raise (SqliteError msg), s)
    | None =>
        let h := next_conn w in
        (Return tt,
         mk_state (mk_world (table w) (connect_fault w) (execute_fault w)
                            (h :: open_conns w) (S h) (executed w))
                  (Some h))
    end.

(** Reading the local [conn]. *)
Definition get_conn : M nat :=
  fun s =>
    match conn s with
    | Some h => (Return h, s)
    | None => (Raise (UnboundLocalError "conn"), s)
    end.

(** [cursor = conn.cursor(); cursor.execute(sql, params)], the cursor being
    the rows left to fetch. *)
Definition execute (st : statement) : M (list tuple) :=
  _ <- get_conn ;;
  fun s =>
    let w := env s in
    match execute_fault w st with
    | Some msg => (Raise (SqliteError msg), s)
    | None =>
        if bindable st then
          (Return (query st (table w)),
           set_env (mk_world (update st (table w)) (connect_fault w)
                             (execute_fault w) (open_conns w) (next_conn w)
                             (executed w ++ [st])) s)
        else (Raise OverflowError, s)
    end.

Fixpoint remove_conn (h : nat) (l : list nat) : list nat :=
  match l with
  | [] => []
  | x :: l' => if Nat.eqb x h then l' else x :: remove_conn h l'
  end.

(** [conn.close()] *)
Definition close : M unit :=
  h <- get_conn ;;
  fun s =>
    let w := env s in
    (Return tt,
     set_env (mk_world (table w) (connect_fault w) (execute_fault w)
                       (remove_conn h (open_conns w)) (next_conn w)
                       (executed w)) s).

(** [cursor.fetchone()] and [cursor.fetchall()] *)
Definition fetchone (cursor : list tuple) : option tuple := hd_error cursor.
Definition fetchall (cursor : list tuple) : list tuple := cursor.

Definition as_int (v : value) : M Z :=
  match v with
  | VInt n => ret n
  | _ => raise TypeError
  end.

(** *** Responses *)

Record casting_dict := mk_casting_dict {
  d_casting : value;
  d_years : value;
  d_cid : value;
  d_low_power : value;
  d_high_power : value;
  d_main_caps : value;
  d_comments : value
}.

Record summary_dict := mk_summary_dict {
  s_casting : value;
  s_years : value;
  s_cid : value
}.

Record castings_response := mk_castings_response {
  r_castings : list summary_dict;
  r_total : Z;
  r_page : Z;
  r_limit : Z;
  r_total_pages : Z
}.

Record search_response := mk_search_response {
  r_results : list casting_dict;
  r_query : string;
  r_count : Z
}.

Definition casting_dict_of_row (row : tuple) : casting_dict :=
  {| d_casting := item row 0;
     d_years := item row 1;
     d_cid := item row 2;
     d_low_power := item row 3;
     d_high_power := item row 4;
     d_main_caps := item row 5;
     d_comments := item row 6 |}.

Definition summary_dict_of_row (row : tuple) : summary_dict :=
  {| s_casting := item row 0;
     s_years := item row 1;
     s_cid := item row 2 |}.

(** *** Handlers *)

Definition database_error {A} (e : string) : M A :=
  raise (HTTPException 500 ("Database error: " ++ e)).

Definition lookup_casting (casting : string) : M casting_dict :=
  row <- try_except_finally
           (connect ;;;
            cursor <- execute (SelectByCasting casting) ;;
            ret (fetchone cursor))
           database_error
           close ;;
  match row with
  | Some row => ret (casting_dict_of_row row)
  | None => raise (HTTPException 404 "Casting not found")
  end.

Definition get_castings (page limit : Z) : M castings_response :=
  try_except_finally
    (connect ;;;
     cursor <- execute SelectCount ;;
     total <- match fetchone cursor with
              | Some row => as_int (item row 0)
              | None => raise TypeError
              end ;;
     let offset := (page - 1) * limit in
     cursor <- execute (SelectPage limit offset) ;;
     let rows := fetchall cursor in
     let castings := map summary_dict_of_row rows in
     ret {| r_castings := castings;
            r_total := total;
            r_page := page;
            r_limit := limit;
            r_total_pages := (total + limit - 1) / limit |})
    database_error
    close.

Definition search_castings (q : string) : M search_response :=
  try_except_finally
    (connect ;;;
     let query := "%" ++ q ++ "%" in
     cursor <- execute (SelectLike query query query query) ;;
     let rows := fetchall cursor in
     let results := map casting_dict_of_row rows in
     ret {| r_results := results;
            r_query := q;
            r_count := Z.of_nat (List.length results) |})
    database_error
    close.

(** *** Routes: parameter validation, then the handler

    [Query(default, ge=, le=)] and [Query(..., min_length=)] are checked by
    the framework before the handler is entered; a parameter that fails is
    answered 422. *)

Record int_query := mk_int_query {
  q_default : option Z;
  q_ge : option Z;
  q_le : option Z
}.

Definition check_bound (b : option Z) (ok : Z -> bool) : bool :=
  match b with
  | None => true
  | Some x => ok x
  end.

Definition validate_int (spec : int_query) (raw : option Z) : option Z :=
  match raw with
  | None => q_default spec
  | Some v =>
      if check_bound (q_ge spec) (fun b => b <=? v)
         && check_bound (q_le spec) (fun b => v <=? b)
      then Some v else None
  end.

(** [Query(..., min_length=n)]: required *)
Definition validate_str (min_length : nat) (raw : option string) : option string :=
  match raw with
  | None => None
  | Some v => if (min_length <=? String.length v)%nat then Some v else None
  end.

Definition page_query : int_query := mk_int_query (Some 1) (Some 1) None.
Definition limit_query : int_query := mk_int_query (Some 50) (Some 1) (Some 100).

(** A request enters its handler with [conn] unbound. *)
Definition run {A} (m : M A) (w : world) : result A * world :=
  let '(r, s) := m (mk_state w None) in (r, env s).

(** The handler of /lookup/{casting}, entered with the path parameter the
    router has matched. *)
Definition route_lookup (casting : string) (w : world) :=
  run (lookup_casting casting) w.

(** A path parameter matches one segment: at least one character, none of
    them a slash. *)
Definition is_segment (text : string) : bool :=
  negb (String.eqb text "") && negb (Text.mem_char "/" text).

(** [path.rstrip('/')] *)
Fixpoint rstrip_slashes (text : string) : string :=
  match text with
  | EmptyString => EmptyString
  | String c rest =>
      match rstrip_slashes rest with
      | EmptyString => if Ascii.eqb c "/" then EmptyString else String c EmptyString
      | t => String c t
      end
  end.

(** What the router does with a request. *)
Inductive routing (A : Type) :=
| Entered (answer : result A * world)  (* the path matched, the handler ran *)
| Redirected (path : string)           (* 307 to the path without its last slashes *)
| NoRoute.                             (* 404 with the detail "Not Found" *)
Arguments Entered {A} answer.
Arguments Redirected {A} path.
Arguments NoRoute {A}.

(** GET /lookup/<text>, [text] being what follows /lookup/ in the decoded
    path: the handler is entered when [text] is one segment; a text that
    ends with slashes after one segment is redirected to that segment; any
    other path matches no route. *)
Definition get_lookup (text : string) (w : world) : routing casting_dict :=
  if is_segment text then Entered (route_lookup text w)
  else if is_segment (rstrip_slashes text)
  then Redirected ("/lookup/" ++ rstrip_slashes text)
  else NoRoute.

(** The answer of the handler, when it was entered. *)
Definition answer_of {A} (x : routing A) : option (result A) :=
  match x with
  | Entered (r, _) => Some r
  | _ => None
  end.

(** The world after the request. *)
Definition world_after {A} (w : world) (x : routing A) : world :=
  match x with
  | Entered (_, w') => w'
  | _ => w
  end.

(** GET /castings?page=&limit= *)
Definition route_castings (page limit : option Z) (w : world) :=
  match validate_int page_query page, validate_int limit_query limit with
  | Some p, Some l => run (get_castings p l) w
  | _, _ => (Raise RequestValidationError, w)
  end.

(** GET /search?q= *)
Definition route_search (q : option string) (w : world) :=
  match validate_str 1 q with
  | Some q => run (search_castings q) w
  | None => (Raise RequestValidationError, w)
  end.

(** The status line of the answer: an exception that is not an HTTP error
    leaves the handler and the server answers 500. *)
Definition status_code {A} (r : result A) : Z :=
  match r with
  | Return _ => 200
  | Raise (HTTPException code _) => code
  | Raise RequestValidationError => 422
  | Raise _ => 500
  end.

(** A store that can be reached and answers every statement. *)
Definition healthy (w : world) : Prop :=
  connect_fault w = None /\ forall st, execute_fault w st = None.

(** A world over [rows] with no fault and nothing open. *)
Definition serving (rows : list record) : world :=
  mk_world rows None (fun _ => None) [] 0 [].

End DataService.

(** ** What the two copies of web_app.py share: Flask and requests *)

Module Flask.

Local Unset Elimination Schemes.
Inductive json :=
| JNull
| JBool (b : bool)
| JInt (n : Z)
| JStr (s : string)
| JList (l : list json)
| JDict (d : list (string * json)).
Local Set Elimination Schemes.

(** Keyword arguments of a call, in the order they are passed. *)
Definition context := list (string * json).

(** The body of an answer: JSON, or text that [response.json()] refuses
    with the given message; the JSONDecodeError it raises then is one of
    requests' own exceptions, a RequestException. *)
Inductive body :=
| Json (data : json)
| Malformed (why : string).

(** What [requests.get] meets: an answer, or a
    [requests.exceptions.RequestException] (refused connection, timeout). *)
Inductive reply :=
| Response (status_code : Z) (content : body)
| RequestException (msg : string).

(** The network as the front end sees it. *)
Record net := mk_net {
  service : string -> reply;        (* the Data Service behind each URL *)
  calls : list (string * Z)         (* URL and timeout of each request, oldest first *)
}.

Definition requests_get (url : string) (timeout : Z) (n : net) : reply * net :=
  (service n url, mk_net (service n) (calls n ++ [(url, timeout)])%list).

Record request := mk_request {
  method : string;
  form : list (string * string);
  args : list (string * string)
}.

(** [d.get(key)] on a multi-dict or a dict: the first value under [key]. *)
Fixpoint get {V} (d : list (string * V)) (key : string) : option V :=
  match d with
  | [] => None
  | (k, v) :: d' => if String.eqb k key then Some v else get d' key
  end.

(** *** [int(text)] in base ten *)

Definition is_digit (c : ascii) : bool :=
  let n := N_of_ascii c in (48 <=? n)%N && (n <=? 57)%N.

Definition digit_value (c : ascii) : Z := Z.of_N (N_of_ascii c) - 48.

(** Digits, single underscores allowed between two of them. *)
Fixpoint parse_digits (s : string) (acc : Z) (after_digit : bool) : option Z :=
  match s with
  | EmptyString => if after_digit then Some acc else None
  | String c s' =>
      if is_digit c then parse_digits s' (10 * acc + digit_value c) true
      else if Ascii.eqb c "_" && after_digit then parse_digits s' acc false
      else None
  end.

(** The whitespace [int] skips around a number, on a character of the range
    0..255: the ASCII blanks, and U+0085 and U+00A0, which the conversion of
    a text that is not all ASCII turns into blanks first. U+001C to U+001F
    are spaces for [str.strip] and not for [int]. *)
Definition is_blank (c : ascii) : bool :=
  let n := N_of_ascii c in
  ((9 <=? n)%N && (n <=? 13)%N) || (n =? 32)%N || (n =? 133)%N || (n =? 160)%N.

Fixpoint skip_blanks (s : string) : string :=
  match s with
  | EmptyString => EmptyString
  | String c s' => if is_blank c then skip_blanks s' else s
  end.

Fixpoint drop_last_blanks (s : string) : string :=
  match s with
  | EmptyString => EmptyString
  | String c s' =>
      match drop_last_blanks s' with
      | EmptyString => if is_blank c then EmptyString else String c EmptyString
      | t => String c t
      end
  end.

(** [sys.get_int_max_str_digits()], as Python starts with. *)
Definition max_str_digits : nat := 4300.

Fixpoint count_digits (s : string) : nat :=
  match s with
  | EmptyString => 0
  | String c s' => ((if is_digit c then 1 else 0) + count_digits s')%nat
  end.

(** The digits after the sign: more of them than the limit is a ValueError
    like any other. *)
Definition parse_number (s : string) : option Z :=
  if (count_digits s <=? max_str_digits)%nat then parse_digits s 0 false
  else None.

(** [None] stands for ValueError. *)
Definition py_int (text : string) : option Z :=
  match drop_last_blanks (skip_blanks text) with
  | String "-" s => option_map Z.opp (parse_number s)
  | String "+" s => parse_number s
  | s => parse_number s
  end.

(** [request.args.get(key, default, type=int)]: the default when the key is
    absent or the conversion raises ValueError. *)
Definition get_int (d : list (string * string)) (key : string) (default : Z) : Z :=
  match get d key with
  | None => default
  | Some text =>
      match py_int text with
      | Some n => n
      | None => default
      end
  end.

(** *** What a view function returns *)

Inductive error :=
| TypeError (msg : string).

Inductive view :=
| Template (name : string) (variables : context)       (* render_template, 200 *)
| Plain (text : string) (status_code : Z)              (* return text, status *)
| Attachment (data : json) (headers : list (string * string))
                                                       (* make_response(jsonify(data)) *)
| Uncaught (e : error).                                (* the exception leaves the view *)

Definition render_template (name : string) (variables : context) : view :=
  Template name variables.

Definition names {V} (d : list (string * V)) : list string := map fst d.

Definition mem (k : string) (l : list string) : bool := existsb (String.eqb k) l.

(** [render_template(name, k=v, ..., **data)]: the call raises TypeError when
    [data] is no mapping, when it repeats a keyword given explicitly, and
    when it has the name of the first parameter of [render_template] among
    its keys, which [name] has taken. The messages are given without the
    name of the function and of the type of [data]. *)
Definition render_template_star (name : string) (explicit : context) (data : json) : view :=
  match data with
  | JDict d =>
      match find (fun k => mem k (names explicit)) (names d) with
      | Some k =>
          Uncaught (TypeError ("got multiple values for keyword argument '" ++ k ++ "'"))
      | None =>
          if mem "template_name_or_list" (names d)
          then Uncaught (TypeError
                 "got multiple values for argument 'template_name_or_list'")
          else Template name (explicit ++ d)%list
      end
  | _ => Uncaught (TypeError "argument after ** must be a mapping")
  end.

Definition status_of (v : view) : Z :=
  match v with
  | Template _ _ => 200
  | Plain _ code => code
  | Attachment _ _ => 200
  | Uncaught _ => 500
  end.

Definition api : string := "http://localhost:8000".

End Flask.

(** ** The Presentation Layer: web_app.py *)

Module WebApp.
Import Flask.

(** [/], GET and POST *)
Definition index (req : request) (n : net) : view * net :=
  if String.eqb (method req) "POST" then
    match get (form req) "casting" with
    | Some (String c rest) =>
        let casting := String c rest in
        let '(r, n') := requests_get (api ++ "/lookup/" ++ Text.strip casting) 5 n in
        (match r with
         | Response status_code content =>
             if status_code =? 200 then
               match content with
               | Json data => render_template "index.html" [("data", data)]
               | Malformed why =>
                   render_template "index.html"
                     [("error", JStr ("Unable to connect to API: " ++ why))]
               end
             else if status_code =? 404 then
               render_template "index.html" [("error", JStr "Casting not found")]
             else
               let fallback := JStr ("API Error: " ++ Text.str_of_int status_code) in
               let error :=
                 match content with
                 | Json (JDict error_data) =>
                     match get error_data "detail" with
                     | Some detail => detail
                     | None => fallback
                     end
                 | _ => fallback
                 end in
               render_template "index.html" [("error", error)]
         | RequestException e =>
             render_template "index.html"
               [("error", JStr ("Unable to connect to API: " ++ e))]
         end, n')
    | _ =>
        (render_template "index.html"
           [("error", JStr "Please enter a casting number")], n)
    end
  else (render_template "index.html" [], n).

(** [/browse] *)
Definition browse (req : request) (n : net) : view * net :=
  let page := get_int (args req) "page" 1 in
  let limit := 20 in
  let '(r, n') :=
    requests_get (api ++ "/castings?page=" ++ Text.str_of_int page
                      ++ "&limit=" ++ Text.str_of_int limit) 10 n in
  (match r with
   | Response status_code content =>
       if status_code =? 200 then
         match content with
         | Json data => render_template_star "browse.html" [] data
         | Malformed why =>
             render_template "browse.html"
               [("error", JStr ("Unable to connect to API: " ++ why))]
         end
       else
         render_template "browse.html"
           [("error", JStr ("API Error: " ++ Text.str_of_int status_code))]
   | RequestException e =>
       render_template "browse.html"
         [("error", JStr ("Unable to connect to API: " ++ e))]
   end, n').

(** [/search], GET and POST *)
Definition search (req : request) (n : net) : view * net :=
  if String.eqb (method req) "POST" then
    match get (form req) "query" with
    | Some (String c rest) =>
        let query := String c rest in
        let '(r, n') := requests_get (api ++ "/search?q=" ++ query) 10 n in
        (match r with
         | Response status_code content =>
             if status_code =? 200 then
               match content with
               | Json data =>
                   render_template_star "search.html" [("query", JStr query)] data
               | Malformed why =>
                   render_template "search.html"
                     [("error", JStr ("Unable to connect to API: " ++ why))]
               end
             else
               render_template "search.html"
                 [("error", JStr ("API Error: " ++ Text.str_of_int status_code));
                  ("query", JStr query)]
         | RequestException e =>
             render_template "search.html"
               [("error", JStr ("Unable to connect to API: " ++ e))]
         end, n')
    | _ => (render_template "search.html" [], n)
    end
  else (render_template "search.html" [], n).

(** [/export/<casting>] *)
Definition export (casting : string) (n : net) : view * net :=
  let '(r, n') := requests_get (api ++ "/lookup/" ++ casting) 5 n in
  (match r with
   | Response status_code content =>
       if status_code =? 200 then
         match content with
         | Json data =>
             Attachment data
               [("Content-Disposition",
                 "attachment; filename=tesla_casting_" ++ casting ++ ".json");
                ("Content-type", "application/json")]
         | Malformed _ => Plain "Error: Unable to fetch data" 500
         end
       else Plain "Error: Casting not found" 404
   | RequestException _ => Plain "Error: Unable to fetch data" 500
   end, n').

End WebApp.

(** ** The second copy: src/web_app.py *)

Module SrcWebApp.
Import Flask.

Definition index (req : request) (n : net) : view * net :=
  if String.eqb (method req) "POST" then
    match get (form req) "casting" with
    | Some (String c rest) =>
        let casting := String c rest in
        let '(r, n') := requests_get (api ++ "/lookup/" ++ Text.strip casting) 5 n in
        (match r with
         | Response status_code content =>
             if status_code =? 200 then
               match content with
               | Json data => render_template "index.html" [("data", data)]
               | Malformed why =>
                   render_template "index.html"
                     [("error", JStr ("Unable to connect to API: " ++ why))]
               end
             else if status_code =? 404 then
               render_template "index.html" [("error", JStr "Casting not found")]
             else
               let fallback := JStr ("API Error: " ++ Text.str_of_int status_code) in
               let error :=
                 match content with
                 | Json (JDict error_data) =>
                     match get error_data "detail" with
                     | Some detail => detail
                     | None => fallback
                     end
                 | _ => fallback
                 end in
               render_template "index.html" [("error", error)]
         | RequestException e =>
             render_template "index.html"
               [("error", JStr ("Unable to connect to API: " ++ e))]
         end, n')
    | _ =>
        (render_template "index.html"
           [("error", JStr "Please enter a casting number")], n)
    end
  else (render_template "index.html" [], n).

Definition browse (req : request) (n : net) : view * net :=
  let page := get_int (args req) "page" 1 in
  let limit := 20 in
  let '(r, n') :=
    requests_get (api ++ "/castings?page=" ++ Text.str_of_int page
                      ++ "&limit=" ++ Text.str_of_int limit) 10 n in
  (match r with
   | Response status_code content =>
       if status_code =? 200 then
         match content with
         | Json data => render_template_star "browse.html" [] data
         | Malformed why =>
             render_template "browse.html"
               [("error", JStr ("Unable to connect to API: " ++ why))]
         end
       else
         render_template "browse.html"
           [("error", JStr ("API Error: " ++ Text.str_of_int status_code))]
   | RequestException e =>
       render_template "browse.html"
         [("error", JStr ("Unable to connect to API: " ++ e))]
   end, n').

(** Differs from the first copy in the variables of two branches. *)
Definition search (req : request) (n : net) : view * net :=
  if String.eqb (method req) "POST" then
    match get (form req) "query" with
    | Some (String c rest) =>
        let query := String c rest in
        let '(r, n') := requests_get (api ++ "/search?q=" ++ query) 10 n in
        (match r with
         | Response status_code content =>
             if status_code =? 200 then
               match content with
               | Json data => render_template_star "search.html" [] data
               | Malformed why =>
                   render_template "search.html"
                     [("error", JStr ("Unable to connect to API: " ++ why));
                      ("query", JStr query)]
               end
             else
               render_template "search.html"
                 [("error", JStr ("API Error: " ++ Text.str_of_int status_code));
                  ("query", JStr query)]
         | RequestException e =>
             render_template "search.html"
               [("error", JStr ("Unable to connect to API: " ++ e));
                ("query", JStr query)]
         end, n')
    | _ => (render_template "search.html" [], n)
    end
  else (render_template "search.html" [], n).

Definition export (casting : string) (n : net) : view * net :=
  let '(r, n') := requests_get (api ++ "/lookup/" ++ casting) 5 n in
  (match r with
   | Response status_code content =>
       if status_code =? 200 then
         match content with
         | Json data =>
             Attachment data
               [("Content-Disposition",
                 "attachment; filename=tesla_casting_" ++ casting ++ ".json");
                ("Content-type", "application/json")]
         | Malformed _ => Plain "Error: Unable to fetch data" 500
         end
       else Plain "Error: Casting not found" 404
   | RequestException _ => Plain "Error: Unable to fetch data" 500
   end, n').

End SrcWebApp.

(** ** The loader: src/db_setup.py *)

Module DbSetup.
Import Store.

(** The CSV file as csv.reader splits it: the fields of each line, the
    header line first; a blank line has no field. *)
Definition line : Type := list string.

(** A row as csv.DictReader yields it: each name of the header with the
    field at its place in the line, or with None (the restval) when the line
    ends before it. The fields a line has beyond the header go under the key
    None, which no column name equals, and are left out. *)
Definition csv_row : Type := list (string * option string).

(** [dict(zip(fieldnames, row))], then restval under the names left. *)
Fixpoint zip_fill (fieldnames : list string) (fields : line) : csv_row :=
  match fieldnames with
  | [] => []
  | name :: fieldnames' =>
      match fields with
      | [] => (name, None) :: zip_fill fieldnames' []
      | field :: fields' => (name, Some field) :: zip_fill fieldnames' fields'
      end
  end.

Definition is_blank (l : line) : bool :=
  match l with
  | [] => true
  | _ => false
  end.

(** [for row in csv.DictReader(file)]: the first line gives the names, the
    blank lines after it are skipped. *)
Definition dict_reader (file : list line) : list csv_row :=
  match file with
  | [] => []
  | fieldnames :: lines =>
      map (zip_fill fieldnames) (filter (fun l => negb (is_blank l)) lines)
  end.

(** [row.get(key)]: under a name the header repeats, the dict keeps what was
    assigned last. *)
Definition item (row : csv_row) (key : string) : option (option string) :=
  Flask.get (rev row) key.

Inductive error :=
| KeyError (key : string).

(** [row[key]] *)
Definition subscript (row : csv_row) (key : string) : error + option string :=
  match item row key with
  | Some field => inr field
  | None => inl (KeyError key)
  end.

Definition and_then {A B} (x : error + A) (k : A -> error + B) : error + B :=
  match x with
  | inl e => inl e
  | inr a => k a
  end.

(** The values bound to the INSERT, None being bound as NULL. *)
Record values := mk_values {
  v_casting : option string;
  v_years : option string;
  v_cid : option string;
  v_low_power : option string;
  v_high_power : option string;
  v_main_caps : option string;
  v_comments : option string
}.

(** The tuple of the INSERT, its items evaluated from left to right;
    [row['Comments'] if 'Comments' in row else ''] comes last. *)
Definition insert_values (row : csv_row) : error + values :=
  and_then (subscript row "Casting ID") (fun casting =>
  and_then (subscript row "Years") (fun years =>
  and_then (subscript row "CID") (fun cid =>
  and_then (subscript row "Low Power") (fun low_power =>
  and_then (subscript row "High Power") (fun high_power =>
  and_then (subscript row "Main Caps") (fun main_caps =>
  let comments :=
    match item row "Comments" with
    | Some field => field
    | None => Some ""
    end in
  inr (mk_values casting years cid low_power high_power main_caps
                 comments))))))).

(** A row of the castings table as the file holds it. The key, a TEXT
    PRIMARY KEY of a table with a rowid, may be NULL; the five columns
    declared NOT NULL may not. *)
Record stored := mk_stored {
  s_casting : option string;
  s_years : string;
  s_cid : string;
  s_low_power : string;
  s_high_power : string;
  s_main_caps : string;
  s_comments : option string
}.

(** Some row has the key; a NULL key equals none. *)
Definition holds_key (key : string) (table : list stored) : bool :=
  existsb (fun s => match s_casting s with
                    | Some k => String.eqb k key
                    | None => false
                    end) table.

(** INSERT OR IGNORE: the row is left out when it has NULL in a column
    declared NOT NULL and when its key is in the table; NULL keys do not
    collide. *)
Definition insert_or_ignore (v : values) (table : list stored) : list stored :=
  match v_years v, v_cid v, v_low_power v, v_high_power v, v_main_caps v with
  | Some years, Some cid, Some low_power, Some high_power, Some main_caps =>
      let s := mk_stored (v_casting v) years cid low_power high_power main_caps
                         (v_comments v) in
      match v_casting v with
      | Some key => if holds_key key table then table else table ++ [s]
      | None => table ++ [s]
      end
  | _, _, _, _, _ => table
  end.

(** The database file: what is committed, and what the open connection
    sees, its own uncommitted writes included. *)
Record database := mk_database {
  on_disk : list stored;
  in_transaction : list stored
}.

(** [cursor.execute('INSERT OR IGNORE ...', values)] *)
Definition execute_insert (v : values) (db : database) : database :=
  mk_database (on_disk db) (insert_or_ignore v (in_transaction db)).

(** [conn.commit()] *)
Definition commit (db : database) : database :=
  mk_database (in_transaction db) (in_transaction db).

(** [for row in reader: ...]; the only exception the loop catches is
    ValueError, so a KeyError leaves it. *)
Fixpoint insert_rows (rows : list csv_row) (db : database)
  : option error * database :=
  match rows with
  | [] => (None, db)
  | row :: rest =>
      match insert_values row with
      | inl e => (Some e, db)
      | inr v => insert_rows rest (execute_insert v db)
      end
  end.

(** [setup_database()] over the lines of the CSV file and the table found in
    castings.db (empty when CREATE TABLE IF NOT EXISTS has just made it),
    both files being there to open and the table having the columns of the
    CREATE TABLE: the exception that ended the run, if any, and the table
    the file holds afterwards. *)
Definition setup_database (file : list line) (disk : list stored)
  : option error * list stored :=
  let db := commit (mk_database disk disk) in
  match insert_rows (dict_reader file) db with
  | (None, db') => (None, on_disk (commit db'))
  | (Some e, db') => (Some e, on_disk db')
  end.

(** The columns the INSERT subscripts, in the order of its tuple. *)
Definition required : list string :=
  ["Casting ID"; "Years"; "CID"; "Low Power"; "High Power"; "Main Caps"].

(** The first required column the header lacks. *)
Definition first_missing (fieldnames : list string) : option string :=
  find (fun c => negb (Flask.mem c fieldnames)) required.

(** No line of the file ends before its Casting ID column. *)
Definition keyed_row (row : csv_row) : bool :=
  match item row "Casting ID" with
  | Some None => false
  | _ => true
  end.

Definition keyed (file : list line) : bool :=
  forallb keyed_row (dict_reader file).

(** The keys of the table that are not NULL. *)
Definition stored_keys (table : list stored) : list string :=
  flat_map (fun s => match s_casting s with
                     | Some k => [k]
                     | None => []
                     end) table.

(** The header names every required column. *)
Definition full_header (file : list line) : bool :=
  match file with
  | [] => true
  | fieldnames :: _ =>
      match first_missing fieldnames with
      | Some _ => false
      | None => true
      end
  end.

(** A row with a key, as the Data Service reads it, and back. *)
Definition of_record (r : record) : stored :=
  mk_stored (Some (casting r)) (years r) (cid r) (low_power r) (high_power r)
            (main_caps r) (comments r).

Definition record_of_values (v : values) : option record :=
  match v_casting v, v_years v, v_cid v, v_low_power v, v_high_power v,
        v_main_caps v with
  | Some casting, Some years, Some cid, Some low_power, Some high_power,
    Some main_caps =>
      Some (mk_record casting years cid low_power high_power main_caps
                      (v_comments v))
  | _, _, _, _, _, _ => None
  end.

(** The records of the lines that give a text to the key and to the five
    columns after it. *)
Fixpoint records_of_rows (rows : list csv_row) : list record :=
  match rows with
  | [] => []
  | row :: rest =>
      match insert_values row with
      | inr v =>
          match record_of_values v with
          | Some r => r :: records_of_rows rest
          | None => records_of_rows rest
          end
      | inl _ => records_of_rows rest
      end
  end.

Definition records_of (file : list line) : list record :=
  records_of_rows (dict_reader file).

End DbSetup.

(** ** The answers of the Data Service as requests receives them *)

Module Wire.
Import Store Flask.

Definition json_of_value (v : value) : json :=
  match v with
  | VNull => JNull
  | VInt n => JInt n
  | VText s => JStr s
  end.

(** The dictionaries main.py returns, keys in the order it writes them. *)
Definition json_of_casting (d : DataService.casting_dict) : json :=
  JDict [("casting", json_of_value (DataService.d_casting d));
         ("years", json_of_value (DataService.d_years d));
         ("cid", json_of_value (DataService.d_cid d));
         ("low_power", json_of_value (DataService.d_low_power d));
         ("high_power", json_of_value (DataService.d_high_power d));
         ("main_caps", json_of_value (DataService.d_main_caps d));
         ("comments", json_of_value (DataService.d_comments d))].

Definition json_of_summary (d : DataService.summary_dict) : json :=
  JDict [("casting", json_of_value (DataService.s_casting d));
         ("years", json_of_value (DataService.s_years d));
         ("cid", json_of_value (DataService.s_cid d))].

Definition json_of_castings (r : DataService.castings_response) : json :=
  JDict [("castings", JList (map json_of_summary (DataService.r_castings r)));
         ("total", JInt (DataService.r_total r));
         ("page", JInt (DataService.r_page r));
         ("limit", JInt (DataService.r_limit r));
         ("total_pages", JInt (DataService.r_total_pages r))].

Definition json_of_search (r : DataService.search_response) : json :=
  JDict [("results", JList (map json_of_casting (DataService.r_results r)));
         ("query", JStr (DataService.r_query r));
         ("count", JInt (DataService.r_count r))].

(** How FastAPI answers for a handler: the returned dictionary as JSON with
    200; an HTTPException as its status with the body {"detail": detail};
    a rejected parameter as 422 and any other exception as 500, with bodies
    this model leaves open. *)
Inductive answers {A} (to_json : A -> json)
  : DataService.result A -> reply -> Prop :=
| answers_return (a : A) :
    answers to_json (DataService.Return a) (Response 200 (Json (to_json a)))
| answers_http (code : Z) (detail : string) :
    answers to_json (DataService.Raise (DataService.HTTPException code detail))
            (Response code (Json (JDict [("detail", JStr detail)])))
| answers_invalid (content : body) :
    answers to_json (DataService.Raise DataService.RequestValidationError)
            (Response 422 content)
| answers_sqlite (msg : string) (content : body) :
    answers to_json (DataService.Raise (DataService.SqliteError msg))
            (Response 500 content)
| answers_overflow (content : body) :
    answers to_json (DataService.Raise DataService.OverflowError)
            (Response 500 content)
| answers_unbound (name : string) (content : body) :
    answers to_json (DataService.Raise (DataService.UnboundLocalError name))
            (Response 500 content)
| answers_type (content : body) :
    answers to_json (DataService.Raise DataService.TypeError)
            (Response 500 content).

End Wire.

(** ** Further vocabulary *)

Module Terms.
Import Store.

(** The row has the given key. *)
Definition same_key (key : string) (r : record) : bool :=
  String.eqb (casting r) key.


(** No searchable field of the row holds a NUL character. *)
Definition plain_row (r : record) : bool :=
  Text.nul_free (casting r) && Text.nul_free (years r) && Text.nul_free (cid r)
  && match comments r with
     | Some c => Text.nul_free c
     | None => true
     end.

End Terms.

(** ** Data for the examples *)

Module Scenario.
Import Store.

(** A CSV file of a header and three lines, the third repeating the key of
    the first; it has no Comments column. *)
Definition csv : list DbSetup.line :=
  [ ["Casting ID"; "Years"; "CID"; "Low Power"; "High Power"; "Main Caps"];
    ["1050123"; "2012-2015"; "ABC"; "150kW"; "310kW"; "Al"];
    ["1002633"; "2016-2018"; "rear Drive"; "100kW"; "200kW"; "Fe"];
    ["1050123"; "2020"; "DUP"; "1kW"; "2kW"; "Cu"] ].

(** The first line of that file under a header that lacks the Years
    column. *)
Definition csv_without_years : list DbSetup.line :=
  [ ["Casting ID"; "CID"; "Low Power"; "High Power"; "Main Caps"];
    ["1050123"; "ABC"; "150kW"; "310kW"; "Al"] ].

(** A file whose key column comes last and whose one line ends before it. *)
Definition csv_short_of_key : list DbSetup.line :=
  [ ["Years"; "CID"; "Low Power"; "High Power"; "Main Caps"; "Casting ID"];
    ["2012-2015"; "ABC"; "150kW"; "310kW"; "Al"] ].

(** A file with a Comments column, a line that ends before it, a blank line
    and a line that ends before the Main Caps column. *)
Definition csv_short_lines : list DbSetup.line :=
  [ ["Casting ID"; "Years"; "CID"; "Low Power"; "High Power"; "Main Caps";
     "Comments"];
    ["1050123"; "2012-2015"; "ABC"; "150kW"; "310kW"; "Al"];
    [];
    ["1002633"; "2016-2018"; "rear Drive"; "100kW"; "200kW"] ].

(** A text of [n] digits 9. *)
Fixpoint nines (n : nat) : string :=
  match n with
  | O => EmptyString
  | S k => String "9" (nines k)
  end.

(** A store whose every statement fails. *)
Definition failing (rows : list record) (msg : string) : DataService.world :=
  DataService.mk_world rows None (fun _ => Some msg) [] 0 [].

End Scenario.

(** ** The vocabulary of the specification *)

Module Spec.
Import Store DataService.

(** Keys in ascending order. *)
Definition key_le (a b : record) : Prop := String.leb (casting a) (casting b) = true.
Definition key_lt (a b : record) : Prop := String.ltb (casting a) (casting b) = true.

(** The full record, field by field as it is stored. *)
Definition full (r : record) : casting_dict :=
  {| d_casting := VText (casting r);
     d_years := VText (years r);
     d_cid := VText (cid r);
     d_low_power := VText (low_power r);
     d_high_power := VText (high_power r);
     d_main_caps := VText (main_caps r);
     d_comments := nullable (comments r) |}.

(** The projection {casting, years, cid}. *)
Definition summary (r : record) : summary_dict :=
  {| s_casting := VText (casting r);
     s_years := VText (years r);
     s_cid := VText (cid r) |}.

(** The query occurs, whatever the case of its ASCII letters, in one of the
    four searchable fields. *)
Definition mentions (q : string) (r : record) : bool :=
  Text.icontains q (casting r) || Text.icontains q (years r)
  || Text.icontains q (cid r) || Text.icontains_null q (comments r).

(** [pages] is ceil(total/limit). *)
Definition is_ceil (total limit pages : Z) : Prop :=
  (pages - 1) * limit < total <= pages * limit.

(** The page numbers 1, ..., n. *)
Definition page_numbers (n : Z) : list Z :=
  map (fun i => Z.of_nat i + 1) (seq 0 (Z.to_nat n)).

(** The castings a request for one page yields; none when it fails. *)
Definition castings_of (r : result castings_response) : list summary_dict :=
  match r with
  | Return resp => r_castings resp
  | Raise _ => []
  end.

(** Requests the given pages one after the other and concatenates what they
    yield. *)
Fixpoint fetch_pages (limit : Z) (pages : list Z) (w : world)
  : list summary_dict * world :=
  match pages with
  | [] => ([], w)
  | p :: rest =>
      let '(r, w1) := route_castings (Some p) (Some limit) w in
      let '(more, w2) := fetch_pages limit rest w1 in
      ((castings_of r ++ more)%list, w2)
  end.

(** A computation that leaves the table as it found it, however it ends. *)
Definition read_only {A} (m : M A) : Prop :=
  forall s, table (env (snd (m s))) = table (env s).

(** A statement that writes nothing. *)
Definition is_select (st : statement) : bool :=
  match st with
  | InsertOrIgnore _ => false
  | _ => true
  end.

(** The world after a request that opened a connection, ran [sts] and
    closed the connection. *)
Definition after (w : world) (sts : list statement) : world :=
  mk_world (table w) (connect_fault w) (execute_fault w) (open_conns w)
           (S (next_conn w)) (executed w ++ sts).

(** Three rows, inserted out of key order. *)
Definition demo : list record :=
  [ mk_record "1050123" "2012-2015" "ABC" "150kW" "310kW" "Al" (Some "");
    mk_record "1002633" "2016-2018" "rear Drive" "100kW" "200kW" "Fe" None;
    mk_record "1120980" "2019" "XYZ" "200kW" "350kW" "Al" (Some "Front unit") ].

(** A table whose one key holds a slash. *)
Definition slashed : list record :=
  [ mk_record "10/50" "2012-2015" "ABC" "150kW" "310kW" "Al" None ].

(** [n] rows with the keys 1000001, 1000002, ... *)
Definition numbered (n : nat) : list record :=
  map (fun i => mk_record (Text.str_of_int (1000000 + Z.of_nat i))
                          "2012-2015" "ABC" "150kW" "310kW" "Al" None)
      (seq 1 n).

End Spec.

(** * Properties *)

Example strip_ex : Text.strip "  10 50  " = "10 50".
Proof. reflexivity. Qed.
Example str_of_int_ex : Text.str_of_int 20 = "20" /\ Text.str_of_int (-3) = "-3".
Proof. split; reflexivity. Qed.
Example like_ex : Text.like "%ab_%" "xxABcd" = true /\ Text.like "%ab_%" "xxAB" = false.
Proof. split; reflexivity. Qed.
Example py_int_ex :
  Flask.py_int " 12 " = Some 12 /\ Flask.py_int "-7" = Some (-7)
  /\ Flask.py_int "1_000" = Some 1000 /\ Flask.py_int "abc" = None
  /\ Flask.py_int "" = None /\ Flask.py_int "1__0" = None /\ Flask.py_int "2.5" = None.
Proof. repeat split; reflexivity. Qed.

(** U+001C is a space for [str.strip] and not for [int]; U+00A0 is one for
    both. *)
Example py_int_blanks_ex :
  Flask.py_int (String (ascii_of_N 28) "12") = None
  /\ Text.strip (String (ascii_of_N 28) "12") = "12"
  /\ Flask.py_int (String (ascii_of_N 160) "12") = Some 12
  /\ Flask.py_int (String (ascii_of_N 9) "12 ") = Some 12.
Proof. repeat split; reflexivity. Qed.

(** 4300 digits are converted, 4301 are not. *)
Example py_int_limit_ex :
  Flask.py_int (Scenario.nines 4301) = None
  /\ Flask.py_int (Scenario.nines 4300) <> None
  /\ Flask.get_int [("page", Scenario.nines 4301)] "page" 1 = 1.
Proof.
  split; [now vm_compute|]. split; [|now vm_compute].
  vm_compute. discriminate.
Qed.

(** A key named as the first parameter of render_template collides with
    the template name. *)
Example star_template_name_ex :
  Flask.render_template_star "browse.html" []
    (Flask.JDict [("template_name_or_list", Flask.JInt 1)])
  = Flask.Uncaught
      (Flask.TypeError "got multiple values for argument 'template_name_or_list'").
Proof. reflexivity. Qed.


(** ** Ordering of keys *)

Module StoreFacts.
Import Store Spec.

Lemma ascii_compare_N (a b : ascii) :
  Ascii.compare a b = N.compare (N_of_ascii a) (N_of_ascii b).
Proof. reflexivity. Qed.

Lemma ascii_compare_refl (a : ascii) : Ascii.compare a a = Eq.
Proof. rewrite ascii_compare_N. apply N.compare_refl. Qed.

Lemma ascii_compare_eq (a b : ascii) : Ascii.compare a b = Eq -> a = b.
Proof. apply Ascii.compare_eq_iff. Qed.

Lemma ascii_lt_trans (a b c : ascii) :
  Ascii.compare a b = Lt -> Ascii.compare b c = Lt -> Ascii.compare a c = Lt.
Proof.
  rewrite !ascii_compare_N, !N.compare_lt_iff. apply N.lt_trans.
Qed.

Lemma string_compare_refl (s : string) : String.compare s s = Eq.
Proof.
  induction s as [|c s IH]; simpl; [reflexivity|].
  now rewrite ascii_compare_refl.
Qed.

Lemma string_lt_trans (a b c : string) :
  String.compare a b = Lt -> String.compare b c = Lt -> String.compare a c = Lt.
Proof.
  revert b c.
  induction a as [|x a IH]; intros [|y b] [|z c]; simpl; try congruence.
  destruct (Ascii.compare x y) eqn:Hxy; try discriminate.
  - apply ascii_compare_eq in Hxy; subst y.
    destruct (Ascii.compare x z); try congruence. apply IH.
  - destruct (Ascii.compare y z) eqn:Hyz; try discriminate.
    + apply ascii_compare_eq in Hyz; subst z. now rewrite Hxy.
    + now rewrite (ascii_lt_trans _ _ _ Hxy Hyz).
Qed.

Lemma leb_cases (a b : string) :
  String.leb a b = true <-> String.compare a b = Lt \/ a = b.
Proof.
  unfold String.leb. split.
  - destruct (String.compare a b) eqn:H; try discriminate; intros _.
    + right. now apply String.compare_eq_iff.
    + now left.
  - intros [H | ->]; [now rewrite H | now rewrite string_compare_refl].
Qed.

Lemma leb_trans (a b c : string) :
  String.leb a b = true -> String.leb b c = true -> String.leb a c = true.
Proof.
  rewrite !leb_cases. intros [Hab | ->] [Hbc | ->]; auto.
  left. eapply string_lt_trans; eauto.
Qed.

Lemma leb_false_le (a b : string) :
  String.leb a b = false -> String.leb b a = true.
Proof.
  intros H. destruct (String.leb_total a b) as [H' | H']; congruence.
Qed.

Lemma ltb_of_leb_neq (a b : string) :
  String.leb a b = true -> a <> b -> String.ltb a b = true.
Proof.
  rewrite leb_cases. unfold String.ltb.
  intros [H | H] Hne; [now rewrite H | contradiction].
Qed.

#[local] Instance key_le_trans : RelationClasses.Transitive key_le.
Proof. intros a b c. unfold key_le. apply leb_trans. Qed.

Lemma insert_perm (r : record) (l : list record) :
  Permutation (r :: l) (insert_by_casting r l).
Proof.
  induction l as [|x l IH]; simpl; [reflexivity|].
  destruct (String.leb (casting r) (casting x)); [reflexivity|].
  rewrite perm_swap. now apply perm_skip.
Qed.

Lemma order_perm (l : list record) : Permutation l (order_by_casting l).
Proof.
  induction l as [|r l IH]; simpl; [constructor|].
  rewrite <- insert_perm. now apply perm_skip.
Qed.

Lemma order_length (l : list record) :
  List.length (order_by_casting l) = List.length l.
Proof. symmetry. apply Permutation_length, order_perm. Qed.

Lemma insert_sorted (r : record) (l : list record) :
  Sorted key_le l -> Sorted key_le (insert_by_casting r l).
Proof.
  induction l as [|x l IH]; simpl; intros Hs.
  - repeat constructor.
  - destruct (String.leb (casting r) (casting x)) eqn:Hrx.
    + constructor; [assumption | now constructor].
    + inversion Hs as [|? ? Hl Hhd]; subst.
      constructor; [now apply IH|].
      destruct l as [|y l]; simpl.
      * constructor. now apply leb_false_le.
      * destruct (String.leb (casting r) (casting y)).
        -- constructor. now apply leb_false_le.
        -- constructor. now inversion Hhd.
Qed.

Lemma order_sorted (l : list record) : Sorted key_le (order_by_casting l).
Proof.
  induction l as [|r l IH]; simpl; [constructor | now apply insert_sorted].
Qed.

Lemma order_keys_nodup (l : list record) :
  unique_keys l -> unique_keys (order_by_casting l).
Proof.
  unfold unique_keys, keys. intros H.
  eapply Permutation_NoDup; [|exact H].
  apply Permutation_map, order_perm.
Qed.

Lemma strict_of_nodup (l : list record) :
  StronglySorted key_le l -> unique_keys l -> StronglySorted key_lt l.
Proof.
  induction 1 as [|x l Hs IH Hall]; intros Hnd; [constructor|].
  unfold unique_keys, keys in Hnd. simpl in Hnd.
  inversion Hnd as [|? ? Hnotin Hnd']; subst.
  constructor; [now apply IH|].
  rewrite Forall_forall in *. intros y Hy.
  apply ltb_of_leb_neq; [now apply Hall|].
  intros Heq. apply Hnotin. rewrite Heq. now apply in_map.
Qed.

(** ORDER BY casting lists every row once, keys strictly ascending. *)
Lemma order_by_casting_ascending (l : list record) :
  unique_keys l -> StronglySorted key_lt (order_by_casting l).
Proof.
  intros H. apply strict_of_nodup.
  - apply Sorted_StronglySorted; [exact key_le_trans | apply order_sorted].
  - now apply order_keys_nodup.
Qed.

Lemma key_lt_asym (a b : record) : key_lt a b -> key_lt b a -> False.
Proof.
  unfold key_lt, String.ltb. intros H1 H2.
  rewrite String.compare_antisym in H2.
  destruct (String.compare (casting a) (casting b)); simpl in *; discriminate.
Qed.

(** Whatever way the engine sorts, the answer is this list: a listing of the
    same rows with strictly ascending keys is unique. *)
Lemma ascending_unique (l1 l2 : list record) :
  StronglySorted key_lt l1 -> StronglySorted key_lt l2 ->
  Permutation l1 l2 -> l1 = l2.
Proof.
  intros H1. revert l2.
  induction H1 as [|x l1 Hs1 IH Hall1]; intros l2 H2 Hp.
  - now apply Permutation_nil in Hp.
  - destruct H2 as [|y l2 Hs2 Hall2].
    + apply Permutation_sym, Permutation_nil in Hp. discriminate.
    + rewrite Forall_forall in Hall1, Hall2.
      assert (x = y) as ->.
      { assert (In x (y :: l2)) as Hx
          by (eapply Permutation_in; [exact Hp | now left]).
        assert (In y (x :: l1)) as Hy
          by (eapply Permutation_in; [symmetry; exact Hp | now left]).
        destruct Hx as [<- | Hx]; [reflexivity|].
        destruct Hy as [-> | Hy]; [reflexivity|].
        exfalso. apply (key_lt_asym x y); auto. }
      f_equal. apply IH; [assumption|].
      now apply Permutation_cons_inv in Hp.
Qed.

(** INSERT OR IGNORE keeps the keys unique. *)
Lemma insert_or_ignore_unique (r : record) (t : list record) :
  unique_keys t -> unique_keys (update (InsertOrIgnore r) t).
Proof.
  unfold unique_keys, keys, update, has_key. intros H.
  destruct (existsb _ t) eqn:E; [assumption|].
  rewrite map_app. simpl.
  apply NoDup_app; [assumption | repeat constructor; intros [] | ].
  intros k Hin [Hk | []]. subst k.
  apply in_map_iff in Hin as (x & Hx & Hin).
  assert (existsb (fun r0 => String.eqb (casting r0) (casting r)) t = true) as E'.
  { apply existsb_exists. exists x. split; [assumption|]. now apply String.eqb_eq. }
  congruence.
Qed.

Lemma setup_database_unique (csv t : list record) :
  unique_keys t -> unique_keys (setup_database csv t).
Proof.
  unfold setup_database. revert t.
  induction csv as [|r csv IH]; simpl; intros t H; [assumption|].
  apply IH. now apply insert_or_ignore_unique.
Qed.

End StoreFacts.

(** ** LIKE against a pattern [%q%] *)

Module TextFacts.
Import Text.

#[local] Arguments Ascii.eqb : simpl never.

Lemma like_percent_step (pat s : string) :
  pattern_compare (String "%" pat) s =
  pattern_compare pat s || match s with
                | EmptyString => false
                | String _ s' => pattern_compare (String "%" pat) s'
                end.
Proof. destruct s; reflexivity. Qed.

Lemma like_percent_any (s : string) : pattern_compare "%" s = true.
Proof.
  induction s as [|c s IH]; [reflexivity|].
  rewrite like_percent_step. rewrite IH. apply orb_true_r.
Qed.

Lemma has_wildcard_cons (c : ascii) (q : string) :
  has_wildcard (String c q) = false ->
  Ascii.eqb c "%" = false /\ Ascii.eqb c "_" = false /\ has_wildcard q = false.
Proof.
  unfold has_wildcard. simpl.
  rewrite (Ascii.eqb_sym "%"%char c), (Ascii.eqb_sym "_"%char c).
  destruct (Ascii.eqb c "%"), (Ascii.eqb c "_"); simpl;
    rewrite ?orb_true_r; try discriminate.
  intros H. auto.
Qed.

(** Without wildcards in [q], the pattern [q%] asks for [q] as a prefix. *)
Lemma like_prefix (q s : string) :
  has_wildcard q = false -> pattern_compare (q ++ "%") s = iprefix q s.
Proof.
  revert s. induction q as [|c q IH]; intros s Hq.
  - simpl append. rewrite like_percent_any. now destruct s.
  - apply has_wildcard_cons in Hq as (Hp & Hu & Hq).
    simpl. rewrite Hp. destruct s as [|d s]; [reflexivity|].
    rewrite Hu. simpl. now rewrite IH.
Qed.

(** Without wildcards in [q], the pattern [%q%] asks for [q] somewhere. *)
Lemma like_contains (q s : string) :
  has_wildcard q = false -> pattern_compare ("%" ++ q ++ "%") s = icontains q s.
Proof.
  intros Hq. change ("%" ++ q ++ "%") with (String "%" (q ++ "%")).
  induction s as [|d s IH].
  - rewrite like_percent_step, like_prefix by assumption. reflexivity.
  - rewrite like_percent_step, like_prefix by assumption.
    rewrite IH. reflexivity.
Qed.

Lemma c_string_nul_free (s : string) : nul_free s = true -> c_string s = s.
Proof.
  induction s as [|c s IH]; simpl; [reflexivity|].
  destruct (is_nul c); simpl; [discriminate|]. intros H. now rewrite IH.
Qed.

Lemma nul_free_app (a b : string) :
  nul_free (a ++ b) = nul_free a && nul_free b.
Proof.
  induction a as [|c a IH]; simpl; [reflexivity|].
  now rewrite IH, andb_assoc.
Qed.

Lemma nul_free_pattern (q : string) :
  nul_free q = true -> nul_free ("%" ++ q ++ "%") = true.
Proof.
  intros H. change ("%" ++ q ++ "%") with (String "%" (q ++ "%")).
  cbn [nul_free]. rewrite nul_free_app, H. reflexivity.
Qed.

(** Without wildcards or NUL in [q], [s LIKE %q%] asks for [q] somewhere in
    a text [s] that holds no NUL. *)
Lemma like_plain (q s : string) :
  has_wildcard q = false -> nul_free q = true -> nul_free s = true ->
  like ("%" ++ q ++ "%") s = icontains q s.
Proof.
  intros Hw Hq Hs. unfold like.
  rewrite (c_string_nul_free _ (nul_free_pattern q Hq)).
  rewrite (c_string_nul_free s Hs). now apply like_contains.
Qed.

Lemma like_null_contains (q : string) (v : option string) :
  has_wildcard q = false -> nul_free q = true ->
  match v with Some s => nul_free s | None => true end = true ->
  like_null ("%" ++ q ++ "%") v = icontains_null q v.
Proof.
  intros Hw Hq Hv. destruct v; simpl; [now apply like_plain | reflexivity].
Qed.

(** [iprefix] and [icontains] say what their names say. *)
Lemma iprefix_spec (q s : string) :
  iprefix q s = true <->
  exists mid post, s = mid ++ post /\ fold_case mid = fold_case q.
Proof.
  revert s. induction q as [|c q IH]; intros s; simpl.
  - split; [intros _; now exists "", s | intros _; now destruct s].
  - destruct s as [|d s].
    + split; [discriminate|]. intros (mid & post & H & Hf).
      destruct mid; simpl in *; discriminate.
    + unfold eqb_nocase. rewrite andb_true_iff, Ascii.eqb_eq, IH. split.
      * intros (Hc & mid & post & -> & Hf).
        exists (String d mid), post. simpl. now rewrite Hf, Hc.
      * intros (mid & post & H & Hf).
        destruct mid as [|m mid]; simpl in *; [discriminate|].
        injection H as -> ->. injection Hf as Hc Hf.
        split; [now symmetry | now exists mid, post].
Qed.

Lemma icontains_spec (q s : string) :
  icontains q s = true <->
  exists pre mid post, s = pre ++ mid ++ post /\ fold_case mid = fold_case q.
Proof.
  induction s as [|d s IH].
  - simpl. rewrite orb_false_r, iprefix_spec. split.
    + intros (mid & post & H & Hf). now exists "", mid, post.
    + intros (pre & mid & post & H & Hf).
      destruct pre; simpl in H; [now exists mid, post | discriminate].
  - change (icontains q (String d s))
      with (iprefix q (String d s) || icontains q s).
    rewrite orb_true_iff, iprefix_spec, IH. split.
    + intros [(mid & post & H & Hf) | (pre & mid & post & H & Hf)].
      * now exists "", mid, post.
      * exists (String d pre), mid, post. simpl. now rewrite H.
    + intros (pre & mid & post & H & Hf).
      destruct pre as [|p pre]; simpl in H.
      * left. now exists mid, post.
      * right. injection H as -> ->. now exists pre, mid, post.
Qed.

Lemma lstrip_blank (s : string) : all_space s = true -> lstrip s = "".
Proof.
  induction s as [|c s IH]; simpl; [reflexivity|].
  intros H. apply andb_prop in H as [Hc Hs]. rewrite Hc. now apply IH.
Qed.

(** Whitespace alone is trimmed to nothing. *)
Lemma strip_blank (s : string) : all_space s = true -> strip s = "".
Proof. intros H. unfold strip. now rewrite lstrip_blank. Qed.

End TextFacts.

(** ** The Data Service never writes *)

Module FrameFacts.
Import Store DataService Spec.

Lemma read_only_ret {A} (a : A) : read_only (ret a).
Proof. intros s. reflexivity. Qed.

Lemma read_only_raise {A} (e : exn) : read_only (@raise A e).
Proof. intros s. reflexivity. Qed.

Lemma read_only_bind {A B} (m : M A) (k : A -> M B) :
  read_only m -> (forall a, read_only (k a)) -> read_only (bind m k).
Proof.
  intros Hm Hk s. unfold bind.
  specialize (Hm s). destruct (m s) as [[a | e] s1]; simpl in *.
  - now rewrite Hk.
  - assumption.
Qed.

Lemma read_only_try {A} (body : M A) (handler : string -> M A) (final : M unit) :
  read_only body -> (forall msg, read_only (handler msg)) -> read_only final ->
  read_only (try_except_finally body handler final).
Proof.
  intros Hb Hh Hf s. unfold try_except_finally.
  specialize (Hb s). destruct (body s) as [r s1]. simpl in Hb.
  assert (forall r' s2, table (env s2) = table (env s) ->
            table (env (snd (let '(x, s3) := final s2 in
                             match x with
                             | Return _ => (r', s3)
                             | Raise e => (@Raise A e, s3)
                             end))) = table (env s)) as Hfin.
  { intros r' s2 H2. specialize (Hf s2).
    destruct (final s2) as [[u | e] s3]; simpl in *; congruence. }
  destruct r as [a | e]; [now apply Hfin|].
  destruct e; try now apply Hfin.
  specialize (Hh msg s1). destruct (handler msg s1) as [r' s2]. simpl in Hh.
  apply Hfin. congruence.
Qed.

Lemma read_only_connect : read_only connect.
Proof. intros s. unfold connect. now destruct (connect_fault (env s)). Qed.

Lemma read_only_get_conn : read_only get_conn.
Proof. intros s. unfold get_conn. now destruct (conn s). Qed.

Lemma read_only_close : read_only close.
Proof.
  apply read_only_bind; [apply read_only_get_conn|]. intros h s. reflexivity.
Qed.

Lemma read_only_execute (st : statement) :
  is_select st = true -> read_only (execute st).
Proof.
  intros Hst. apply read_only_bind; [apply read_only_get_conn|].
  intros _ s. cbv zeta. destruct (execute_fault (env s) st); [reflexivity|].
  destruct (bindable st); [|reflexivity].
  destruct st; try discriminate; reflexivity.
Qed.

Lemma read_only_as_int (v : value) : read_only (as_int v).
Proof. destruct v; intros st; reflexivity. Qed.

Create HintDb frame.
#[local] Hint Resolve read_only_ret read_only_raise read_only_connect
  read_only_close read_only_execute read_only_as_int : frame.

Lemma read_only_lookup (casting : string) : read_only (lookup_casting casting).
Proof.
  unfold lookup_casting.
  apply read_only_bind.
  - apply read_only_try; auto with frame.
    + repeat (apply read_only_bind; intros; auto with frame).
    + intros msg. apply read_only_raise.
  - intros [row|]; auto with frame.
Qed.

Lemma read_only_castings (page limit : Z) : read_only (get_castings page limit).
Proof.
  unfold get_castings.
  apply read_only_try; auto with frame.
  - apply read_only_bind; [auto with frame | intros _].
    apply read_only_bind; [auto with frame | intros cursor].
    apply read_only_bind.
    + destruct (fetchone cursor); auto with frame.
    + intros total. apply read_only_bind; intros; auto with frame.
  - intros msg. apply read_only_raise.
Qed.

Lemma read_only_search (q : string) : read_only (search_castings q).
Proof.
  unfold search_castings.
  apply read_only_try; auto with frame.
  - repeat (apply read_only_bind; intros; auto with frame).
  - intros msg. apply read_only_raise.
Qed.

Lemma read_only_run {A} (m : M A) (w : world) :
  read_only m -> table (snd (run m w)) = table w.
Proof.
  intros H. unfold run. specialize (H (mk_state w None)).
  destruct (m (mk_state w None)) as [r s]. exact H.
Qed.

(** C9. Lookup, paginated listing and search leave the set of records of the
    store as they found it, for every state of the store, every input and
    every way the request ends (answer, not found, rejected parameter, store
    error, failed connection). *)
Theorem service_is_read_only (w : world) :
  (forall casting, table (snd (route_lookup casting w)) = table w)
  /\ (forall page limit, table (snd (route_castings page limit w)) = table w)
  /\ (forall q, table (snd (route_search q w)) = table w).
Proof.
  repeat split.
  - intros casting. apply read_only_run, read_only_lookup.
  - intros page limit. unfold route_castings.
    destruct (validate_int page_query page); [|reflexivity].
    destruct (validate_int limit_query limit); [|reflexivity].
    apply read_only_run, read_only_castings.
  - intros q. unfold route_search.
    destruct (validate_str 1 q); [|reflexivity].
    apply read_only_run, read_only_search.
Qed.

(** The same statements do write when they are allowed to: the loader's
    INSERT adds a row through [execute]. *)
Lemma execute_insert_writes (r : record) (w : world) (h : nat) :
  execute_fault w (InsertOrIgnore r) = None ->
  has_key (casting r) (table w) = false ->
  table (env (snd (execute (InsertOrIgnore r) (mk_state w (Some h)))))
  = (table w ++ [r])%list.
Proof.
  intros He Hk. unfold execute, bind, get_conn. simpl.
  rewrite He. simpl. now rewrite Hk.
Qed.

End FrameFacts.

(** ** The handlers over a store that answers *)

Module ServiceFacts.
Import Store DataService Spec.

Lemma remove_conn_head (h : nat) (l : list nat) : remove_conn h (h :: l) = l.
Proof. simpl. now rewrite Nat.eqb_refl. Qed.

Lemma full_of_row (r : record) : casting_dict_of_row (select_all r) = full r.
Proof. reflexivity. Qed.

Lemma summary_of_row (r : record) : summary_dict_of_row (select_summary r) = summary r.
Proof. reflexivity. Qed.

Lemma map_full (l : list record) :
  map casting_dict_of_row (map select_all l) = map full l.
Proof. rewrite map_map. apply map_ext, full_of_row. Qed.

Lemma map_summary (l : list record) :
  map summary_dict_of_row (map select_summary l) = map summary l.
Proof. rewrite map_map. apply map_ext, summary_of_row. Qed.

Ltac run_healthy w H :=
  destruct w as [t cf ef oc nc ex]; destruct H as [Hc He]; simpl in Hc, He;
  subst cf;
  repeat progress
    (unfold run, try_except_finally, bind, connect, execute, close, get_conn,
       set_env, after, ret, raise, database_error; simpl;
     rewrite ?He, ?Nat.eqb_refl).

Lemma lookup_healthy (w : world) (key : string) :
  healthy w ->
  route_lookup key w =
  (match find (fun r => String.eqb (casting r) key) (table w) with
   | Some r => Return (full r)
   | None => Raise (HTTPException 404 "Casting not found")
   end, after w [SelectByCasting key]).
Proof.
  intros H. unfold route_lookup, lookup_casting. run_healthy w H.
  induction t as [|r t IH]; simpl; [reflexivity|].
  destruct (String.eqb (casting r) key); simpl; [reflexivity|].
  unfold fetchone in *.
  destruct (hd_error _), (find _ t); simpl in *; congruence.
Qed.

Lemma castings_healthy (w : world) (page limit : Z) :
  healthy w -> bindable (SelectPage limit ((page - 1) * limit)) = true ->
  run (get_castings page limit) w =
  (Return {| r_castings :=
               map summary (limit_offset limit ((page - 1) * limit)
                              (order_by_casting (table w)));
             r_total := Z.of_nat (List.length (table w));
             r_page := page;
             r_limit := limit;
             r_total_pages := (Z.of_nat (List.length (table w)) + limit - 1) / limit |},
   after w [SelectCount; SelectPage limit ((page - 1) * limit)]).
Proof.
  intros H Hb. unfold get_castings. simpl in Hb. run_healthy w H.
  unfold fetchall. rewrite Hb. simpl.
  rewrite Nat.eqb_refl, map_summary, <- app_assoc. reflexivity.
Qed.

Lemma castings_overflow (w : world) (page limit : Z) :
  healthy w -> bindable (SelectPage limit ((page - 1) * limit)) = false ->
  run (get_castings page limit) w = (Raise OverflowError, after w [SelectCount]).
Proof.
  intros H Hb. unfold get_castings. simpl in Hb. run_healthy w H.
  rewrite Hb. simpl. rewrite Nat.eqb_refl. reflexivity.
Qed.

Lemma search_healthy (w : world) (q : string) :
  healthy w ->
  let pat := "%" ++ q ++ "%" in
  let hits := filter (like_row pat pat pat pat) (order_by_casting (table w)) in
  run (search_castings q) w =
  (Return {| r_results := map full hits;
             r_query := q;
             r_count := Z.of_nat (List.length hits) |},
   after w [SelectLike pat pat pat pat]).
Proof.
  intros H pat hits. unfold search_castings. run_healthy w H.
  unfold fetchall. rewrite map_full, !length_map. reflexivity.
Qed.

Lemma after_healthy (w : world) (sts : list statement) :
  healthy w -> healthy (after w sts).
Proof. intros [Hc He]. split; assumption. Qed.

Lemma find_unique (t : list record) (r : record) :
  unique_keys t -> In r t ->
  find (fun x => String.eqb (casting x) (casting r)) t = Some r.
Proof.
  unfold unique_keys, keys.
  induction t as [|x t IH]; simpl; intros Hnd Hin; [contradiction|].
  inversion Hnd as [|? ? Hnotin Hnd']; subst.
  destruct Hin as [-> | Hin].
  - now rewrite String.eqb_refl.
  - destruct (String.eqb (casting x) (casting r)) eqn:E.
    + apply String.eqb_eq in E. exfalso. apply Hnotin.
      rewrite E. now apply in_map.
    + now apply IH.
Qed.

Lemma find_absent (t : list record) (key : string) :
  ~ In key (keys t) -> find (fun x => String.eqb (casting x) key) t = None.
Proof.
  unfold keys. induction t as [|x t IH]; simpl; intros Hn; [reflexivity|].
  destruct (String.eqb (casting x) key) eqn:E.
  - apply String.eqb_eq in E. exfalso. apply Hn. now left.
  - apply IH. intros Hin. apply Hn. now right.
Qed.

Lemma get_lookup_segment (w : world) (key : string) :
  is_segment key = true -> get_lookup key w = Entered (route_lookup key w).
Proof. intros Hs. unfold get_lookup. now rewrite Hs. Qed.

Lemma answer_of_entered {A} (p : result A * world) :
  answer_of (Entered p) = Some (fst p).
Proof. now destruct p. Qed.

(** C3 (amended). Over a store that answers, GET /lookup/<key> for a key that
    is one path segment (not empty, no slash) and is present returns the
    full record with exactly the stored value of each of its seven fields;
    for such a key that is absent it raises the 404 error "Casting not
    found" and returns no record. *)
Theorem lookup_returns_stored_record (w : world) (key : string) :
  healthy w -> unique_keys (table w) -> is_segment key = true ->
  (forall r, In r (table w) -> casting r = key ->
             answer_of (get_lookup key w) = Some (Return (full r)))
  /\ (~ In key (keys (table w)) ->
      answer_of (get_lookup key w)
      = Some (Raise (HTTPException 404 "Casting not found"))
      /\ status_code (fst (route_lookup key w)) = 404).
Proof.
  intros H Hu Hs. rewrite (get_lookup_segment w key Hs), answer_of_entered.
  rewrite (lookup_healthy w key H). simpl. split.
  - intros r Hin <-. now rewrite find_unique.
  - intros Hn. now rewrite find_absent.
Qed.

(** *** Pagination *)

Lemma firstn_plus {A} (a b : nat) (l : list A) :
  firstn (a + b) l = (firstn a l ++ firstn b (skipn a l))%list.
Proof.
  revert l. induction a as [|a IH]; intros l; [reflexivity|].
  destruct l as [|x l]; simpl; [now rewrite firstn_nil | now rewrite IH].
Qed.

(** Slices of [n] taken one after the other rebuild a prefix. *)
Lemma slices_concat {A} (n k : nat) (l : list A) :
  List.concat (map (fun i => firstn n (skipn (i * n) l)) (seq 0 k)) = firstn (k * n) l.
Proof.
  induction k as [|k IH]; [reflexivity|].
  rewrite seq_S, map_app, concat_app, IH. simpl.
  rewrite app_nil_r, <- firstn_plus. f_equal. lia.
Qed.

Lemma ceil_div (total limit : Z) :
  0 <= total -> 1 <= limit -> is_ceil total limit ((total + limit - 1) / limit).
Proof.
  intros Ht Hl. unfold is_ceil.
  pose proof (Z.div_mod (total + limit - 1) limit ltac:(lia)) as Hdm.
  pose proof (Z.mod_pos_bound (total + limit - 1) limit ltac:(lia)) as Hmod.
  nia.
Qed.

Lemma fits_small (n : Z) : 0 <= n <= max_int64 -> fits_int64 n = true.
Proof.
  unfold fits_int64, max_int64. intros H.
  apply andb_true_intro. split; apply Z.leb_le; lia.
Qed.

Lemma page_bindable (page limit : Z) :
  1 <= page -> 1 <= limit <= 100 -> (page - 1) * limit <= max_int64 ->
  bindable (SelectPage limit ((page - 1) * limit)) = true.
Proof.
  intros Hp Hl Ho. simpl. rewrite !fits_small; [reflexivity | nia |].
  unfold max_int64. lia.
Qed.

Lemma route_castings_valid (page limit : Z) (w : world) :
  1 <= page -> 1 <= limit <= 100 ->
  route_castings (Some page) (Some limit) w = run (get_castings page limit) w.
Proof.
  intros Hp Hl. unfold route_castings, validate_int. simpl.
  assert ((1 <=? page) = true) as -> by (apply Z.leb_le; lia).
  assert ((1 <=? limit) = true) as -> by (apply Z.leb_le; lia).
  assert ((limit <=? 100) = true) as -> by (apply Z.leb_le; lia).
  reflexivity.
Qed.

Lemma limit_offset_slice {A} (limit offset : Z) (l : list A) :
  1 <= limit ->
  limit_offset limit offset l = firstn (Z.to_nat limit) (skipn (Z.to_nat offset) l).
Proof.
  intros Hl. unfold limit_offset.
  now assert ((limit <? 0) = false) as -> by (apply Z.ltb_ge; lia).
Qed.

(** One valid page over a store that answers. *)
Lemma castings_page (w : world) (page limit : Z) :
  healthy w -> 1 <= page -> 1 <= limit <= 100 ->
  (page - 1) * limit <= max_int64 ->
  route_castings (Some page) (Some limit) w =
  (Return {| r_castings :=
               map summary (firstn (Z.to_nat limit)
                              (skipn (Z.to_nat ((page - 1) * limit))
                                 (order_by_casting (table w))));
             r_total := Z.of_nat (List.length (table w));
             r_page := page;
             r_limit := limit;
             r_total_pages := (Z.of_nat (List.length (table w)) + limit - 1) / limit |},
   after w [SelectCount; SelectPage limit ((page - 1) * limit)]).
Proof.
  intros H Hp Hl Ho.
  rewrite route_castings_valid, castings_healthy by auto using page_bindable.
  rewrite limit_offset_slice by lia. reflexivity.
Qed.

(** Pages [first+1 .. first+k] requested in a row yield the slices of the
    sorted table in a row. *)
Lemma fetch_pages_slices (limit : Z) (k first : nat) (w : world) :
  healthy w -> 1 <= limit <= 100 ->
  (Z.of_nat (first + k) - 1) * limit <= max_int64 ->
  fst (fetch_pages limit (map (fun i => Z.of_nat i + 1) (seq first k)) w) =
  map summary
    (List.concat (map (fun i => firstn (Z.to_nat limit)
                             (skipn (i * Z.to_nat limit)
                                (order_by_casting (table w))))
                 (seq first k))).
Proof.
  revert first w. induction k as [|k IH]; intros first w H Hl Hb; [reflexivity|].
  simpl map. simpl fetch_pages.
  rewrite castings_page by (auto; nia).
  specialize (IH (S first) (after w [SelectCount;
                    SelectPage limit ((Z.of_nat first + 1 - 1) * limit)])).
  destruct (fetch_pages limit _ _) as [more w2] eqn:E.
  cbn [fst concat map]. rewrite map_app. f_equal.
  - cbn [castings_of r_castings]. do 3 f_equal.
    replace (Z.of_nat first + 1 - 1) with (Z.of_nat first) by lia.
    rewrite Z2Nat.inj_mul, Nat2Z.id by lia. reflexivity.
  - change more with (fst (more, w2)).
    apply IH; [now apply after_healthy | assumption | ].
    replace (S first + k)%nat with (first + S k)%nat by lia. assumption.
Qed.

(** Pagination while the offset fits 64 bits. Over a store that answers,
    with unique keys and at most 2^63-1 rows, for page >= 1 and
    1 <= limit <= 100 whose offset (page-1)*limit fits a signed 64-bit
    integer: /castings returns the slice
    of at most limit rows at offset (page-1)*limit of the rows ordered by key
    ascending, each projected to {casting, years, cid}, with the total and
    total_pages = ceil(total/limit); pages 1..total_pages requested in order
    and concatenated are the whole table in ascending key order, every row
    once. *)
Theorem castings_pagination (w : world) (page limit : Z) :
  healthy w -> unique_keys (table w) ->
  Z.of_nat (List.length (table w)) <= max_int64 ->
  1 <= page -> 1 <= limit <= 100 -> (page - 1) * limit <= max_int64 ->
  let sorted := order_by_casting (table w) in
  let total := Z.of_nat (List.length (table w)) in
  exists resp,
    fst (route_castings (Some page) (Some limit) w) = Return resp
    /\ r_castings resp =
       map summary (firstn (Z.to_nat limit)
                      (skipn (Z.to_nat ((page - 1) * limit)) sorted))
    /\ (List.length (r_castings resp) <= Z.to_nat limit)%nat
    /\ r_total resp = total
    /\ is_ceil total limit (r_total_pages resp)
    /\ fst (fetch_pages limit (page_numbers (r_total_pages resp)) w)
       = map summary sorted
    /\ Permutation (table w) sorted
    /\ StronglySorted key_lt sorted.
Proof.
  intros H Hu Hsize Hp Hl Ho sorted total.
  eexists. rewrite castings_page by assumption.
  pose proof (ceil_div total limit ltac:(lia) ltac:(lia)) as Hceil.
  split; [reflexivity|]. cbn [r_castings r_total r_total_pages].
  split; [reflexivity|].
  split; [rewrite length_map, length_firstn; lia|].
  split; [reflexivity|]. split; [exact Hceil|].
  split; [|split].
  - unfold page_numbers. fold total.
    set (tp := (total + limit - 1) / limit) in *.
    destruct Hceil as [Hlo Hhi].
    rewrite fetch_pages_slices; auto.
    + rewrite slices_concat. fold sorted. f_equal.
      apply firstn_all2. unfold sorted. rewrite StoreFacts.order_length. nia.
    + simpl. nia.
  - apply StoreFacts.order_perm.
  - now apply StoreFacts.order_by_casting_ascending.
Qed.

Lemma serving_healthy (rows : list record) : healthy (serving rows).
Proof. split; reflexivity. Defined.

Lemma demo_unique : unique_keys demo.
Proof.
  unfold unique_keys, keys, demo. simpl.
  repeat constructor; simpl; intuition discriminate.
Defined.

Lemma castings_pagination_witness :
  exists resp,
    fst (route_castings (Some 2) (Some 2) (serving demo)) = Return resp
    /\ r_castings resp =
       map summary (firstn (Z.to_nat 2)
                      (skipn (Z.to_nat ((2 - 1) * 2)) (order_by_casting demo)))
    /\ (List.length (r_castings resp) <= Z.to_nat 2)%nat
    /\ r_total resp = Z.of_nat (List.length demo)
    /\ is_ceil (Z.of_nat (List.length demo)) 2 (r_total_pages resp)
    /\ fst (fetch_pages 2 (page_numbers (r_total_pages resp)) (serving demo))
       = map summary (order_by_casting demo)
    /\ Permutation demo (order_by_casting demo)
    /\ StronglySorted key_lt (order_by_casting demo).
Proof.
  apply (castings_pagination (serving demo) 2 2).
  - apply serving_healthy.
  - apply demo_unique.
  - unfold max_int64. simpl. lia.
  - lia.
  - lia.
  - unfold max_int64. lia.
Defined.

(** C1 (the code departs from it). Page 2^63-1 with limit 100 passes the
    validation of the route (page >= 1, 1 <= limit <= 100), the count is
    read, and the offset (page-1)*limit does not fit the 64-bit integer that
    SQLite binds: the OverflowError is no sqlite3.Error, so it leaves the
    handler as it is and /castings returns no slice, where a page past the
    end whose offset fits is answered with the empty slice. *)
Lemma castings_huge_page_overflows :
  1 <= 9223372036854775807 /\ 1 <= 100 <= 100
  /\ validate_int page_query (Some 9223372036854775807) = Some 9223372036854775807
  /\ validate_int limit_query (Some 100) = Some 100
  /\ fst (route_castings (Some 9223372036854775807) (Some 100) (serving demo))
     = Raise OverflowError
  /\ executed (snd (route_castings (Some 9223372036854775807) (Some 100)
                                   (serving demo)))
     = [SelectCount]
  /\ (exists resp,
        fst (route_castings (Some 92233720368547759) (Some 100) (serving demo))
        = Return resp /\ r_castings resp = [])
  /\ ~ exists resp,
        fst (route_castings (Some 9223372036854775807) (Some 100) (serving demo))
        = Return resp.
Proof.
  assert (fst (route_castings (Some 9223372036854775807) (Some 100) (serving demo))
          = Raise OverflowError) as E by reflexivity.
  split; [lia|]. split; [lia|]. split; [reflexivity|]. split; [reflexivity|].
  split; [exact E|]. split; [reflexivity|].
  split; [eexists; split; reflexivity|].
  intros [resp H]. rewrite E in H. discriminate.
Qed.

(** *** Search *)

Lemma like_row_mentions (q : string) (r : record) :
  Text.has_wildcard q = false -> Text.nul_free q = true ->
  Terms.plain_row r = true ->
  let pat := "%" ++ q ++ "%" in
  like_row pat pat pat pat r = mentions q r.
Proof.
  intros Hq Hn Hr pat. unfold like_row, mentions, pat.
  unfold Terms.plain_row in Hr.
  apply andb_prop in Hr as [Hr Hcomments].
  apply andb_prop in Hr as [Hr Hcid].
  apply andb_prop in Hr as [Hcasting Hyears].
  rewrite !TextFacts.like_plain, TextFacts.like_null_contains by assumption.
  destruct (Text.icontains q (casting r)), (Text.icontains q (cid r)),
    (Text.icontains q (years r)); reflexivity.
Qed.

Lemma sorted_filter {A} (R : A -> A -> Prop) (f : A -> bool) (l : list A) :
  StronglySorted R l -> StronglySorted R (filter f l).
Proof.
  induction 1 as [|x l Hs IH Hall]; simpl; [constructor|].
  destruct (f x); [|assumption].
  constructor; [assumption|].
  rewrite Forall_forall in *. intros y Hy.
  apply filter_In in Hy as [Hy _]. now apply Hall.
Qed.

Lemma filter_none {A} (f : A -> bool) (l : list A) :
  (forall x, In x l -> f x = false) -> filter f l = [].
Proof.
  induction l as [|x l IH]; simpl; intros H; [reflexivity|].
  rewrite (H x) by now left. apply IH. intros y Hy. apply H. now right.
Qed.

(** C2 (amended). Over a store that answers and whose searchable fields
    hold no NUL character, for every non-empty query q that contains
    neither [%] nor [_] nor NUL and whose pattern [%q%] is within the 50000
    bytes SQLite accepts, /search returns exactly the full records in which
    q occurs, up to the case of ASCII letters, as a substring of casting,
    years, cid or comments, in ascending key order, with the query echoed
    and the number of matches; when nothing matches, the answer is an empty
    list with count 0 and no error. *)
Theorem search_finds_substrings (w : world) (q : string) :
  healthy w -> forallb Terms.plain_row (table w) = true ->
  q <> "" -> Text.has_wildcard q = false -> Text.nul_free q = true ->
  Text.pattern_bytes q <= Text.max_like_pattern ->
  let hits := filter (mentions q) (order_by_casting (table w)) in
  fst (route_search (Some q) w)
  = Return {| r_results := map full hits;
              r_query := q;
              r_count := Z.of_nat (List.length hits) |}
  /\ (forall r, In r hits <-> In r (table w) /\ mentions q r = true)
  /\ StronglySorted key_le hits
  /\ ((forall r, In r (table w) -> mentions q r = false) ->
      fst (route_search (Some q) w)
      = Return {| r_results := []; r_query := q; r_count := 0 |}).
Proof.
  intros H Hplain Hne Hq Hnul _ hits.
  assert (fst (route_search (Some q) w)
          = Return {| r_results := map full hits;
                      r_query := q;
                      r_count := Z.of_nat (List.length hits) |}) as E.
  { unfold route_search, validate_str.
    destruct q as [|c q]; [contradiction|]. cbn [String.length Nat.leb].
    rewrite search_healthy by assumption. cbn [fst]. unfold hits.
    rewrite (filter_ext_in _ (mentions (String c q))); [reflexivity|].
    intros r Hr. apply like_row_mentions; try assumption.
    rewrite forallb_forall in Hplain. apply Hplain.
    eapply Permutation_in; [symmetry; apply StoreFacts.order_perm | exact Hr]. }
  split; [exact E|]. split; [|split].
  - intros r. unfold hits. rewrite filter_In. split; intros [Hin Hm]; split; auto.
    + eapply Permutation_in; [symmetry; apply StoreFacts.order_perm | exact Hin].
    + eapply Permutation_in; [apply StoreFacts.order_perm | exact Hin].
  - apply sorted_filter, Sorted_StronglySorted;
      [exact StoreFacts.key_le_trans | apply StoreFacts.order_sorted].
  - intros Hnone. rewrite E.
    assert (hits = []) as ->; [|reflexivity].
    unfold hits. apply filter_none. intros r Hin. apply Hnone.
    eapply Permutation_in; [symmetry; apply StoreFacts.order_perm | exact Hin].
Qed.

Lemma search_finds_substrings_witness :
  let hits := filter (mentions "drive") (order_by_casting demo) in
  fst (route_search (Some "drive") (serving demo))
  = Return {| r_results := map full hits;
              r_query := "drive";
              r_count := Z.of_nat (List.length hits) |}
  /\ (forall r, In r hits <-> In r demo /\ mentions "drive" r = true)
  /\ StronglySorted key_le hits
  /\ ((forall r, In r demo -> mentions "drive" r = false) ->
      fst (route_search (Some "drive") (serving demo))
      = Return {| r_results := []; r_query := "drive"; r_count := 0 |}).
Proof.
  apply (search_finds_substrings (serving demo) "drive").
  - apply serving_healthy.
  - reflexivity.
  - discriminate.
  - reflexivity.
  - reflexivity.
  - unfold Text.pattern_bytes, Text.max_like_pattern. simpl. lia.
Defined.

(** C2 as stated fails: the query [_] occurs in no field of the three rows,
    and /search returns all three, since LIKE reads it as "any character". *)
Lemma search_underscore_matches_everything :
  "_" <> ""
  /\ filter (mentions "_") demo = []
  /\ exists resp,
       fst (route_search (Some "_") (serving demo)) = Return resp
       /\ r_results resp = map full (order_by_casting demo)
       /\ r_count resp = 3.
Proof.
  split; [discriminate|]. split; [reflexivity|].
  eexists. split; [reflexivity|]. split; reflexivity.
Qed.

(** The query made of the NUL character alone occurs in no field either:
    SQLite reads the bound pattern as far as its first NUL, here [%], and
    /search returns every row. *)
Example search_nul_matches_everything :
  filter (mentions (String Ascii.zero "")) demo = []
  /\ exists resp,
       fst (route_search (Some (String Ascii.zero "")) (serving demo)) = Return resp
       /\ r_results resp = map full (order_by_casting demo)
       /\ r_count resp = 3.
Proof.
  split; [reflexivity|].
  eexists. split; [reflexivity|]. split; reflexivity.
Qed.

Lemma lookup_returns_stored_record_witness :
  (forall r, In r demo -> casting r = "1050123" ->
             answer_of (get_lookup "1050123" (serving demo))
             = Some (Return (full r)))
  /\ (~ In "1050123" (keys demo) ->
      answer_of (get_lookup "1050123" (serving demo))
      = Some (Raise (HTTPException 404 "Casting not found"))
      /\ status_code (fst (route_lookup "1050123" (serving demo))) = 404).
Proof.
  apply (lookup_returns_stored_record (serving demo) "1050123").
  - apply serving_healthy.
  - apply demo_unique.
  - reflexivity.
Defined.

(** The claim as the specification words it, for every key, fails: a key
    that is stored with a slash in it matches no route, so the request is
    answered "Not Found" by the router and the record is not returned. *)
Example lookup_of_slashed_key_has_no_route :
  healthy (serving slashed)
  /\ unique_keys slashed
  /\ (exists r, In r slashed /\ casting r = "10/50")
  /\ get_lookup "10/50" (serving slashed) = NoRoute
  /\ answer_of (get_lookup "10/50" (serving slashed)) = None
  /\ fst (route_lookup "10/50" (serving slashed))
     = Return (full (mk_record "10/50" "2012-2015" "ABC" "150kW" "310kW" "Al" None)).
Proof.
  split; [apply serving_healthy|].
  split; [repeat constructor; simpl; tauto|].
  split; [eexists; split; [left; reflexivity|reflexivity]|].
  repeat split.
Qed.

(** The example of the specification: the inserted record comes back as it
    is, and an unknown key is not found. *)
Example lookup_example :
  fst (route_lookup "1050123" (serving demo))
  = Return {| d_casting := VText "1050123"; d_years := VText "2012-2015";
              d_cid := VText "ABC"; d_low_power := VText "150kW";
              d_high_power := VText "310kW"; d_main_caps := VText "Al";
              d_comments := VText "" |}
  /\ fst (route_lookup "9999999" (serving demo))
     = Raise (HTTPException 404 "Casting not found").
Proof. split; reflexivity. Qed.

(** The example of the specification: 55 records, limit 20, page 3 holds the
    records 41 to 55 and there are 3 pages. *)
Example page_three_of_fifty_five :
  match fst (route_castings (Some 3) (Some 20) (serving (numbered 55))) with
  | Return resp =>
      r_total resp = 55 /\ r_total_pages resp = 3
      /\ List.length (r_castings resp) = 15%nat
      /\ r_castings resp = map summary (skipn 40 (numbered 55))
  | Raise _ => False
  end.
Proof. vm_compute. repeat split. Qed.

(** *** Validation *)

(** C6. A /castings request whose limit is outside [1,100] or whose page is
    below 1, and a /search request whose q is missing or empty, are answered
    422 by the validation of the route; the world is left as it was: no
    connection opened, no statement executed. *)
Theorem invalid_parameters_rejected (w : world) :
  (forall page limit,
      (exists l, limit = Some l /\ (l < 1 \/ 100 < l))
      \/ (exists p, page = Some p /\ p < 1) ->
      route_castings page limit w = (Raise RequestValidationError, w)
      /\ status_code (fst (route_castings page limit w)) = 422)
  /\ (forall q,
      q = None \/ q = Some "" ->
      route_search q w = (Raise RequestValidationError, w)
      /\ status_code (fst (route_search q w)) = 422).
Proof.
  split.
  - intros page limit Hbad.
    assert (route_castings page limit w = (Raise RequestValidationError, w)) as E.
    { unfold route_castings.
      destruct Hbad as [(l & -> & Hl) | (p & -> & Hp)].
      - assert (validate_int limit_query (Some l) = None) as ->.
        { unfold validate_int, limit_query, check_bound. simpl.
          destruct (1 <=? l) eqn:E1, (l <=? 100) eqn:E2; try reflexivity.
          apply Z.leb_le in E1, E2. lia. }
        now destruct (validate_int page_query page).
      - assert (validate_int page_query (Some p) = None) as ->.
        { unfold validate_int, page_query, check_bound. simpl.
          destruct (1 <=? p) eqn:E1; try reflexivity.
          apply Z.leb_le in E1. lia. }
        reflexivity. }
    now rewrite E.
  - intros q [-> | ->]; split; reflexivity.
Qed.

Lemma invalid_parameters_rejected_witness :
  route_castings (Some 1) (Some 101) (serving demo)
  = (Raise RequestValidationError, serving demo)
  /\ route_castings (Some 0) None (serving demo)
     = (Raise RequestValidationError, serving demo)
  /\ route_search (Some "") (serving demo)
     = (Raise RequestValidationError, serving demo).
Proof.
  destruct (invalid_parameters_rejected (serving demo)) as [Hc Hs].
  split; [|split].
  - apply (Hc (Some 1) (Some 101)). left. exists 101. split; [reflexivity | lia].
  - apply (Hc (Some 0) None). right. exists 0. split; [reflexivity | lia].
  - apply (Hs (Some "")). now right.
Defined.

(** *** Connections *)

(** The store once the connection is open: every handler closes it, whether
    the statements succeed, fail or cannot be bound. *)
Lemma connection_released (w : world) :
  connect_fault w = None ->
  (forall casting, open_conns (snd (route_lookup casting w)) = open_conns w)
  /\ (forall page limit,
        open_conns (snd (run (get_castings page limit) w)) = open_conns w)
  /\ (forall q, open_conns (snd (run (search_castings q) w)) = open_conns w).
Proof.
  destruct w as [t cf ef oc nc ex]. simpl. intros ->.
  split; [|split].
  - intros casting.
    unfold route_lookup, run, lookup_casting, try_except_finally, bind,
      connect, execute, close, get_conn, bind, set_env, database_error, raise, ret.
    simpl. destruct (ef (SelectByCasting casting)); simpl;
      rewrite ?Nat.eqb_refl; [reflexivity|].
    destruct (fetchone _); simpl; now rewrite ?Nat.eqb_refl.
  - intros page limit.
    unfold run, get_castings, try_except_finally, bind,
      connect, execute, close, get_conn, bind, set_env, database_error, raise, ret.
    simpl. destruct (ef SelectCount); simpl;
      rewrite ?Nat.eqb_refl; [reflexivity|].
    destruct (ef (SelectPage _ _)); simpl; rewrite ?Nat.eqb_refl; [reflexivity|].
    destruct (fits_int64 limit && fits_int64 _); simpl;
      now rewrite ?Nat.eqb_refl.
  - intros q.
    unfold run, search_castings, try_except_finally, bind,
      connect, execute, close, get_conn, bind, set_env, database_error, raise, ret.
    simpl. destruct (ef (SelectLike _ _ _ _)); simpl;
      now rewrite ?Nat.eqb_refl.
Qed.

(** C5 (the code departs from it). When sqlite3.connect itself raises, the
    [except] clause raises the 500 error, the [finally] clause then reads
    [conn], which was never bound, and UnboundLocalError replaces the HTTP
    error and leaves the handler; so it is for the three handlers. *)
Theorem failed_connect_escapes (w : world) (msg : string) :
  connect_fault w = Some msg ->
  (forall casting,
      route_lookup casting w = (Raise (UnboundLocalError "conn"), w))
  /\ (forall page limit,
        run (get_castings page limit) w = (Raise (UnboundLocalError "conn"), w))
  /\ (forall q,
        run (search_castings q) w = (Raise (UnboundLocalError "conn"), w)).
Proof.
  destruct w as [t cf ef oc nc ex]. simpl. intros ->.
  split; [|split]; intros; reflexivity.
Qed.

Lemma failed_connect_escapes_witness :
  let w := mk_world demo (Some "unable to open database file")
                    (fun _ => None) [] 0 [] in
  (forall casting,
      route_lookup casting w = (Raise (UnboundLocalError "conn"), w))
  /\ (forall page limit,
        run (get_castings page limit) w = (Raise (UnboundLocalError "conn"), w))
  /\ (forall q,
        run (search_castings q) w = (Raise (UnboundLocalError "conn"), w)).
Proof.
  intros w. apply (failed_connect_escapes w "unable to open database file").
  reflexivity.
Defined.

End ServiceFacts.

(** ** The Presentation Layer *)

Module WebFacts.
Import Flask.

Lemma calls_after_get (url : string) (timeout : Z) (n : net) :
  calls (snd (requests_get url timeout n)) = (calls n ++ [(url, timeout)])%list.
Proof. reflexivity. Qed.

Lemma star_without_keywords (name : string) (d : context) :
  mem "template_name_or_list" (names d) = false ->
  render_template_star name [] (JDict d) = Template name d.
Proof.
  intros Hd. unfold render_template_star. rewrite Hd.
  change (find (fun k => mem k (names [])) (names d))
    with (find (fun _ : string => false) (names d)).
  assert (find (fun _ : string => false) (names d) = None) as ->; [|reflexivity].
  clear Hd. induction (names d); simpl; auto.
Qed.

(** *** Browse *)

Lemma browse_calls (req : request) (n : net) :
  calls (snd (WebApp.browse req n)) =
  (calls n ++ [((api ++ "/castings?page="
                    ++ Text.str_of_int (get_int (args req) "page" 1)
                    ++ "&limit=20")%string, 10)])%list.
Proof. reflexivity. Qed.

(** C10. In the browse flow a page parameter that is absent, or that int()
    refuses, is replaced by 1 without any error: the one request made is for
    page 1 with limit 20, the flow goes on exactly as for page=1, and an
    answer of the Data Service, an object none of whose keys is the name of
    the first parameter of render_template, is rendered as the page. *)
Theorem browse_defaults_to_first_page (req : request) (n : net) :
  get (args req) "page" = None
  \/ (exists text, get (args req) "page" = Some text /\ py_int text = None) ->
  let url := "http://localhost:8000/castings?page=1&limit=20" in
  calls (snd (WebApp.browse req n)) = (calls n ++ [(url, 10)])%list
  /\ WebApp.browse req n
     = WebApp.browse (mk_request (method req) (form req) [("page", "1")]) n
  /\ (forall data, service n url = Response 200 (Json (JDict data)) ->
        mem "template_name_or_list" (names data) = false ->
        fst (WebApp.browse req n) = Template "browse.html" data).
Proof.
  intros Hpage url.
  assert (get_int (args req) "page" 1 = 1) as Hone.
  { unfold get_int. destruct Hpage as [-> | (text & -> & ->)]; reflexivity. }
  assert (WebApp.browse req n
          = WebApp.browse (mk_request (method req) (form req) [("page", "1")]) n) as E.
  { unfold WebApp.browse. cbn [args]. now rewrite Hone. }
  split; [|split].
  - rewrite browse_calls, Hone. reflexivity.
  - exact E.
  - intros data Hdata Hkeys. rewrite E. unfold WebApp.browse, requests_get.
    cbn -[render_template_star]. fold url. rewrite Hdata.
    cbn -[render_template_star]. now apply star_without_keywords.
Qed.

Lemma browse_defaults_to_first_page_witness :
  let req := mk_request "GET" [] [("page", "two")] in
  let n := mk_net (fun _ => Response 200 (Json (JDict [("total", JInt 0)]))) [] in
  let url := "http://localhost:8000/castings?page=1&limit=20" in
  calls (snd (WebApp.browse req n)) = (calls n ++ [(url, 10)])%list
  /\ WebApp.browse req n
     = WebApp.browse (mk_request (method req) (form req) [("page", "1")]) n
  /\ (forall data, service n url = Response 200 (Json (JDict data)) ->
        mem "template_name_or_list" (names data) = false ->
        fst (WebApp.browse req n) = Template "browse.html" data).
Proof.
  intros req n.
  apply (browse_defaults_to_first_page req n).
  right. exists "two". split; reflexivity.
Defined.

(** *** Single lookup *)

(** A submitted input that is not empty costs one request, for the trimmed
    identifier. *)
Lemma index_lookup_call (req : request) (n : net) (casting : string) :
  method req = "POST" -> get (form req) "casting" = Some casting ->
  casting <> "" ->
  calls (snd (WebApp.index req n))
  = (calls n ++ [(("http://localhost:8000/lookup/" ++ Text.strip casting)%string, 5)])%list.
Proof.
  intros Hm Hc Hne. unfold WebApp.index. rewrite Hm, Hc.
  cbn [String.eqb Ascii.eqb Bool.eqb].
  destruct casting as [|c rest]; [contradiction|].
  destruct (requests_get _ 5 n) as [r n'] eqn:E.
  cbn [snd]. change n' with (snd (r, n')). rewrite <- E. reflexivity.
Qed.

(** Whitespace alone is not empty: it is looked up, as the empty
    identifier. *)
Lemma index_blank_input_is_looked_up (req : request) (n : net) (casting : string) :
  method req = "POST" -> get (form req) "casting" = Some casting ->
  casting <> "" -> Text.all_space casting = true ->
  calls (snd (WebApp.index req n))
  = (calls n ++ [("http://localhost:8000/lookup/", 5)])%list.
Proof.
  intros Hm Hc Hne Hblank.
  rewrite (index_lookup_call req n casting Hm Hc Hne).
  now rewrite TextFacts.strip_blank.
Qed.

(** The guard of the single-lookup flow. It rejects locally, with no request
    to the Data Service, the input that is absent or empty as submitted; any
    other input, one made of whitespace included, is trimmed of surrounding
    whitespace and looked up with exactly one request. *)
Theorem index_rejects_empty_input_only (req : request) (n : net) :
  method req = "POST" ->
  (get (form req) "casting" = None \/ get (form req) "casting" = Some "" ->
     WebApp.index req n
     = (Template "index.html" [("error", JStr "Please enter a casting number")], n))
  /\ (forall casting,
        get (form req) "casting" = Some casting -> casting <> "" ->
        calls (snd (WebApp.index req n))
        = (calls n ++ [(("http://localhost:8000/lookup/" ++ Text.strip casting)%string, 5)])%list).
Proof.
  intros Hm. split.
  - unfold WebApp.index. rewrite Hm. cbn [String.eqb Ascii.eqb Bool.eqb].
    intros [-> | ->]; reflexivity.
  - intros casting Hc Hne. now apply index_lookup_call.
Qed.

Lemma index_rejects_empty_input_only_witness :
  let req := mk_request "POST" [("casting", " 1050123 ")] [] in
  let n := mk_net (fun _ => RequestException "Connection refused") [] in
  (get (form req) "casting" = None \/ get (form req) "casting" = Some "" ->
     WebApp.index req n
     = (Template "index.html" [("error", JStr "Please enter a casting number")], n))
  /\ (forall casting,
        get (form req) "casting" = Some casting -> casting <> "" ->
        calls (snd (WebApp.index req n))
        = (calls n ++ [(("http://localhost:8000/lookup/" ++ Text.strip casting)%string, 5)])%list).
Proof.
  intros req n. apply (index_rejects_empty_input_only req n). reflexivity.
Defined.

(** C7 (the code departs from it). The flow tests the input for emptiness
    as it was submitted and trims it afterwards: three spaces pass the
    test, are empty after trimming, and a request is sent for the empty
    identifier, to a path no route of the Data Service matches; the empty
    input itself is rejected with no request. *)
Lemma index_whitespace_reaches_service :
  let req := mk_request "POST" [("casting", "   ")] [] in
  let n := mk_net (fun _ => Response 404 (Json (JDict [("detail", JStr "Not Found")]))) [] in
  Text.strip "   " = ""
  /\ calls n = []
  /\ calls (snd (WebApp.index req n)) = [("http://localhost:8000/lookup/", 5)]
  /\ DataService.get_lookup "" (DataService.serving Spec.demo) = DataService.NoRoute
  /\ WebApp.index (mk_request "POST" [("casting", "")] []) n
     = (Template "index.html" [("error", JStr "Please enter a casting number")], n).
Proof. repeat split; reflexivity. Qed.

(** *** Export *)

Lemma export_found (casting : string) (n : net) (data : json) :
  service n ("http://localhost:8000/lookup/" ++ casting) = Response 200 (Json data) ->
  fst (WebApp.export casting n)
  = Attachment data
      [("Content-Disposition",
        "attachment; filename=tesla_casting_" ++ casting ++ ".json");
       ("Content-type", "application/json")].
Proof. intros H. unfold WebApp.export, requests_get. cbn in H |- *. now rewrite H. Qed.

Lemma export_unreachable (casting : string) (n : net) (msg : string) :
  service n ("http://localhost:8000/lookup/" ++ casting) = RequestException msg ->
  fst (WebApp.export casting n) = Plain "Error: Unable to fetch data" 500.
Proof. intros H. unfold WebApp.export, requests_get. cbn in H |- *. now rewrite H. Qed.

(** C4 (the code departs from it). Whatever answer of the Data Service is
    not a 200, a 500 store error included, is exported as 404 "Casting not
    found"; the specification has 500 for every failure other than a missing
    key. *)
Theorem export_reports_every_failure_as_missing
    (casting : string) (n : net) (code : Z) (content : body) :
  service n ("http://localhost:8000/lookup/" ++ casting) = Response code content ->
  code <> 200 ->
  fst (WebApp.export casting n) = Plain "Error: Casting not found" 404.
Proof.
  intros H Hc. unfold WebApp.export, requests_get. cbn in H |- *. rewrite H.
  now destruct (Z.eqb_spec code 200).
Qed.

Lemma export_reports_every_failure_as_missing_witness :
  let n := mk_net (fun _ => Response 500
                     (Json (JDict [("detail", JStr "Database error: disk I/O error")])))
                  [] in
  fst (WebApp.export "1050123" n) = Plain "Error: Casting not found" 404.
Proof.
  intros n.
  apply (export_reports_every_failure_as_missing "1050123" n 500
           (Json (JDict [("detail", JStr "Database error: disk I/O error")]))).
  - reflexivity.
  - discriminate.
Defined.

(** *** The two copies *)

Lemma copies_agree_on_index (req : request) (n : net) :
  SrcWebApp.index req n = WebApp.index req n.
Proof. reflexivity. Qed.

Lemma copies_agree_on_browse (req : request) (n : net) :
  SrcWebApp.browse req n = WebApp.browse req n.
Proof. reflexivity. Qed.

Lemma copies_agree_on_export (casting : string) (n : net) :
  SrcWebApp.export casting n = WebApp.export casting n.
Proof. reflexivity. Qed.

(** C8 (the code departs from it). On a submitted query the two copies of
    [search] differ: when the Data Service cannot be reached the first copy
    drops the variable [query] that the second one passes, and on a 200
    answer, which carries a key [query], the first copy passes [query] twice
    and the call raises TypeError where the second copy renders the
    results. *)
Theorem search_copies_differ :
  let req := mk_request "POST" [("query", "abc")] [] in
  let down := mk_net (fun _ => RequestException "Connection refused") [] in
  let up := mk_net (fun _ => Response 200
                      (Json (JDict [("results", JList []); ("query", JStr "abc");
                                    ("count", JInt 0)]))) [] in
  fst (WebApp.search req down)
  = Template "search.html"
      [("error", JStr "Unable to connect to API: Connection refused")]
  /\ fst (SrcWebApp.search req down)
     = Template "search.html"
         [("error", JStr "Unable to connect to API: Connection refused");
          ("query", JStr "abc")]
  /\ fst (WebApp.search req up)
     = Uncaught (TypeError "got multiple values for keyword argument 'query'")
  /\ status_of (fst (WebApp.search req up)) = 500
  /\ fst (SrcWebApp.search req up)
     = Template "search.html"
         [("results", JList []); ("query", JStr "abc"); ("count", JInt 0)]
  /\ status_of (fst (SrcWebApp.search req up)) = 200.
Proof. repeat split; reflexivity. Qed.

(** Where the two copies of [search] do agree: a GET, an empty submission
    and an answer that is not a 200. *)
Lemma search_copies_agree_elsewhere (req : request) (n : net) :
  (method req <> "POST"
   \/ get (form req) "query" = None
   \/ get (form req) "query" = Some ""
   \/ exists q code content,
        get (form req) "query" = Some q
        /\ service n ("http://localhost:8000/search?q=" ++ q) = Response code content
        /\ code <> 200) ->
  SrcWebApp.search req n = WebApp.search req n.
Proof.
  unfold SrcWebApp.search, WebApp.search.
  intros [Hm | [Hq | [Hq | (q & code & content & Hq & Hs & Hc)]]].
  - apply String.eqb_neq in Hm. now rewrite Hm.
  - now rewrite Hq.
  - now rewrite Hq.
  - rewrite Hq. destruct (String.eqb (method req) "POST"); [|reflexivity].
    destruct q as [|c rest]; [reflexivity|].
    unfold requests_get. cbn in Hs |- *. rewrite Hs.
    now destruct (Z.eqb_spec code 200).
Qed.

End WebFacts.

(** ** The loader *)

Module LoaderFacts.
Import Store DataService Spec Terms.

Lemma has_key_find (key : string) (t : list record) :
  has_key key t = true <-> find (same_key key) t <> None.
Proof.
  unfold has_key, same_key. induction t as [|x t IH]; simpl.
  - split; [discriminate | intros H; now elim H].
  - destruct (String.eqb (casting x) key); simpl; [|exact IH].
    split; [discriminate | reflexivity].
Qed.

Lemma find_app_l (key : string) (t u : list record) (r : record) :
  find (same_key key) t = Some r -> find (same_key key) (t ++ u) = Some r.
Proof.
  induction t as [|x t IH]; simpl; [discriminate|].
  destruct (same_key key x); auto.
Qed.

Lemma find_app_r (key : string) (t u : list record) :
  find (same_key key) t = None ->
  find (same_key key) (t ++ u) = find (same_key key) u.
Proof.
  induction t as [|x t IH]; simpl; [reflexivity|].
  destruct (same_key key x); [discriminate | auto].
Qed.

Lemma has_key_app (key : string) (t u : list record) :
  has_key key (t ++ u) = has_key key t || has_key key u.
Proof. unfold has_key. apply existsb_app. Qed.

Lemma setup_cons (r : record) (csv t : list record) :
  Store.setup_database (r :: csv) t
  = Store.setup_database csv (update (InsertOrIgnore r) t).
Proof. reflexivity. Qed.

(** After the load, a key is held by the row that held it before, else by
    the first line of the file that has it. *)
Lemma setup_find (key : string) (csv t : list record) :
  find (same_key key) (Store.setup_database csv t)
  = find (same_key key) (t ++ csv).
Proof.
  revert t. induction csv as [|r csv IH]; intros t.
  - simpl. now rewrite app_nil_r.
  - rewrite setup_cons, IH. simpl update.
    destruct (has_key (casting r) t) eqn:Hk.
    + destruct (find (same_key key) t) as [x|] eqn:Hf.
      * now rewrite !(find_app_l _ _ _ _ Hf).
      * rewrite !find_app_r by assumption. simpl.
        destruct (same_key key r) eqn:Hr; [|reflexivity].
        unfold same_key in Hr. apply String.eqb_eq in Hr. subst key.
        apply has_key_find in Hk. contradiction.
    + now rewrite <- app_assoc.
Qed.

Lemma setup_noop (csv t : list record) :
  (forall r, In r csv -> has_key (casting r) t = true) ->
  Store.setup_database csv t = t.
Proof.
  induction csv as [|r csv IH]; intros H; [reflexivity|].
  rewrite setup_cons. simpl update.
  rewrite (H r) by now left. apply IH. intros x Hx. apply H. now right.
Qed.

Lemma setup_has_keys (csv t : list record) (r : record) :
  In r csv \/ has_key (casting r) t = true ->
  has_key (casting r) (Store.setup_database csv t) = true.
Proof.
  intros H. apply has_key_find. rewrite setup_find.
  destruct H as [H | H].
  - destruct (find (same_key (casting r)) t) as [x|] eqn:Hf.
    + now rewrite (find_app_l _ _ _ _ Hf).
    + rewrite find_app_r by assumption.
      apply has_key_find. unfold has_key. apply existsb_exists.
      exists r. split; [assumption | apply String.eqb_refl].
  - apply has_key_find in H.
    destruct (find (same_key (casting r)) t) as [x|] eqn:Hf; [|contradiction].
    now rewrite (find_app_l _ _ _ _ Hf).
Qed.

Lemma setup_idempotent (csv t : list record) :
  Store.setup_database csv (Store.setup_database csv t)
  = Store.setup_database csv t.
Proof.
  apply setup_noop. intros r Hr. apply setup_has_keys. now left.
Qed.

(** What the load adds comes after the rows that were there, comes from the
    file, and brings only keys that were not there. *)
Lemma setup_extends (csv t : list record) :
  exists added,
    Store.setup_database csv t = (t ++ added)%list
    /\ forall r, In r added -> In r csv /\ has_key (casting r) t = false.
Proof.
  revert t. induction csv as [|r csv IH]; intros t.
  - exists []. split; [now rewrite app_nil_r | intros r []].
  - rewrite setup_cons. simpl update.
    destruct (has_key (casting r) t) eqn:Hk.
    + destruct (IH t) as (added & E & Hadd). exists added. split; [exact E|].
      intros x Hx. destruct (Hadd x Hx). split; [now right | assumption].
    + destruct (IH (t ++ [r])%list) as (added & E & Hadd).
      exists (r :: added). split; [now rewrite E, <- app_assoc|].
      intros x [<- | Hx]; [split; [now left | assumption]|].
      destruct (Hadd x Hx) as [Hin Hnk]. split; [now right|].
      rewrite has_key_app in Hnk. now apply orb_false_elim in Hnk.
Qed.

(** *** The loader over the file *)

Lemma get_app {V} (l1 l2 : list (string * V)) (key : string) :
  Flask.get (l1 ++ l2)%list key
  = match Flask.get l1 key with
    | Some v => Some v
    | None => Flask.get l2 key
    end.
Proof.
  induction l1 as [|[k v] l1 IH]; simpl; [reflexivity|].
  destruct (String.eqb k key); [reflexivity | exact IH].
Qed.

Lemma item_cons (k : string) (v : option string) (row : DbSetup.csv_row)
    (key : string) :
  DbSetup.item ((k, v) :: row) key
  = match DbSetup.item row key with
    | Some f => Some f
    | None => if String.eqb k key then Some v else None
    end.
Proof.
  unfold DbSetup.item. simpl rev. rewrite get_app.
  destruct (Flask.get (rev row) key); [reflexivity|].
  simpl. now destruct (String.eqb k key).
Qed.

Lemma item_missing (names : list string) (fields : DbSetup.line) (key : string) :
  Flask.mem key names = false ->
  DbSetup.item (DbSetup.zip_fill names fields) key = None.
Proof.
  revert fields. induction names as [|n names IH]; intros fields H.
  - reflexivity.
  - unfold Flask.mem in H. simpl in H. apply orb_false_elim in H as [Hn Hm].
    destruct fields; cbn [DbSetup.zip_fill]; rewrite item_cons, IH by exact Hm;
      now rewrite String.eqb_sym, Hn.
Qed.

Lemma item_present (names : list string) (fields : DbSetup.line) (key : string) :
  Flask.mem key names = true ->
  exists f, DbSetup.item (DbSetup.zip_fill names fields) key = Some f.
Proof.
  revert fields. induction names as [|n names IH]; intros fields H.
  - discriminate.
  - unfold Flask.mem in H. simpl in H.
    assert (forall v rest,
              exists f, DbSetup.item ((n, v) :: DbSetup.zip_fill names rest) key
                        = Some f) as Hcons.
    { intros v rest. rewrite item_cons.
      destruct (DbSetup.item (DbSetup.zip_fill names rest) key) as [f|] eqn:E;
        [now exists f|].
      destruct (String.eqb n key) eqn:Hn; [now exists v|].
      rewrite String.eqb_sym, Hn in H. simpl in H.
      destruct (IH rest H) as [f Hf]. congruence. }
    destruct fields; cbn [DbSetup.zip_fill]; apply Hcons.
Qed.

Lemma subscript_missing (names : list string) (fields : DbSetup.line) (key : string) :
  Flask.mem key names = false ->
  DbSetup.subscript (DbSetup.zip_fill names fields) key
  = inl (DbSetup.KeyError key).
Proof. intros H. unfold DbSetup.subscript. now rewrite item_missing. Qed.

Lemma subscript_present (names : list string) (fields : DbSetup.line) (key : string) :
  Flask.mem key names = true ->
  exists f, DbSetup.subscript (DbSetup.zip_fill names fields) key = inr f.
Proof.
  intros H. unfold DbSetup.subscript.
  destruct (item_present names fields key H) as [f ->]. now exists f.
Qed.

(** The INSERT of a line raises KeyError for the first required column the
    header lacks. *)
Lemma insert_values_missing (header : list string) (fields : DbSetup.line)
    (name : string) :
  DbSetup.first_missing header = Some name ->
  DbSetup.insert_values (DbSetup.zip_fill header fields)
  = inl (DbSetup.KeyError name).
Proof.
  unfold DbSetup.first_missing, DbSetup.required. cbn [find]. intros H.
  unfold DbSetup.insert_values.
  repeat match type of H with
         | context [Flask.mem ?c header] =>
             let Hc := fresh "Hc" in
             destruct (Flask.mem c header) eqn:Hc; cbn [negb] in H;
             [ let f := fresh "f" in
               let Hf := fresh "Hf" in
               destruct (subscript_present header fields c Hc) as [f Hf];
               rewrite Hf; cbn [DbSetup.and_then]
             | injection H as <-;
               rewrite (subscript_missing header fields _ Hc); reflexivity ]
         end.
  discriminate.
Qed.

Lemma insert_values_full (header : list string) (fields : DbSetup.line) :
  DbSetup.first_missing header = None ->
  exists v, DbSetup.insert_values (DbSetup.zip_fill header fields) = inr v.
Proof.
  unfold DbSetup.first_missing, DbSetup.required. cbn [find]. intros H.
  unfold DbSetup.insert_values.
  repeat match type of H with
         | context [Flask.mem ?c header] =>
             let Hc := fresh "Hc" in
             destruct (Flask.mem c header) eqn:Hc; cbn [negb] in H;
             [ let f := fresh "f" in
               let Hf := fresh "Hf" in
               destruct (subscript_present header fields c Hc) as [f Hf];
               rewrite Hf; cbn [DbSetup.and_then]
             | discriminate ]
         end.
  eexists. reflexivity.
Qed.

Lemma insert_values_casting (row : DbSetup.csv_row) (v : DbSetup.values) :
  DbSetup.insert_values row = inr v ->
  DbSetup.item row "Casting ID" = Some (DbSetup.v_casting v).
Proof.
  unfold DbSetup.insert_values, DbSetup.subscript.
  destruct (DbSetup.item row "Casting ID") as [c|]; [|discriminate].
  destruct (DbSetup.item row "Years"); [|discriminate].
  destruct (DbSetup.item row "CID"); [|discriminate].
  destruct (DbSetup.item row "Low Power"); [|discriminate].
  destruct (DbSetup.item row "High Power"); [|discriminate].
  destruct (DbSetup.item row "Main Caps"); [|discriminate].
  cbn [DbSetup.and_then]. intros H. injection H as <-. reflexivity.
Qed.

(** *** INSERT OR IGNORE on the table of the file *)

Lemma holds_key_app (key : string) (t u : list DbSetup.stored) :
  DbSetup.holds_key key (t ++ u)
  = DbSetup.holds_key key t || DbSetup.holds_key key u.
Proof. unfold DbSetup.holds_key. apply existsb_app. Qed.

Lemma holds_key_of_records (key : string) (t : list record) :
  DbSetup.holds_key key (map DbSetup.of_record t) = has_key key t.
Proof.
  unfold DbSetup.holds_key, has_key.
  induction t as [|r t IH]; simpl; [reflexivity|]. now rewrite IH.
Qed.

Lemma stored_keys_app (t u : list DbSetup.stored) :
  DbSetup.stored_keys (t ++ u)
  = (DbSetup.stored_keys t ++ DbSetup.stored_keys u)%list.
Proof. unfold DbSetup.stored_keys. apply flat_map_app. Qed.

Lemma holds_key_In (key : string) (t : list DbSetup.stored) :
  DbSetup.holds_key key t = true <-> In key (DbSetup.stored_keys t).
Proof.
  unfold DbSetup.holds_key, DbSetup.stored_keys.
  induction t as [|s t IH]; simpl.
  - split; [discriminate | intros []].
  - rewrite orb_true_iff, in_app_iff, IH.
    destruct (DbSetup.s_casting s) as [k|]; simpl.
    + rewrite String.eqb_eq. tauto.
    + split; [intros [H|H]; [discriminate | now right] | intros [[]|H]; now right].
Qed.

(** A row with a key is inserted as the record it makes, when it makes
    one and the key is new. *)
Lemma insert_keyed (v : DbSetup.values) (t : list DbSetup.stored) (k : string) :
  DbSetup.v_casting v = Some k ->
  DbSetup.insert_or_ignore v t
  = match DbSetup.record_of_values v with
    | Some r =>
        if DbSetup.holds_key k t then t else (t ++ [DbSetup.of_record r])%list
    | None => t
    end.
Proof.
  intros Hk. unfold DbSetup.insert_or_ignore, DbSetup.record_of_values.
  rewrite Hk.
  destruct (DbSetup.v_years v), (DbSetup.v_cid v), (DbSetup.v_low_power v),
    (DbSetup.v_high_power v), (DbSetup.v_main_caps v); reflexivity.
Qed.

Lemma record_of_values_casting (v : DbSetup.values) (r : record) (k : string) :
  DbSetup.v_casting v = Some k -> DbSetup.record_of_values v = Some r ->
  casting r = k.
Proof.
  unfold DbSetup.record_of_values. intros ->.
  destruct (DbSetup.v_years v), (DbSetup.v_cid v), (DbSetup.v_low_power v),
    (DbSetup.v_high_power v), (DbSetup.v_main_caps v); try discriminate.
  intros H. now injection H as <-.
Qed.

(** What one INSERT adds comes after the rows that were there, and a key
    it brings was not there. *)
Lemma insert_extends (v : DbSetup.values) (t : list DbSetup.stored) :
  exists added,
    DbSetup.insert_or_ignore v t = (t ++ added)%list
    /\ (forall s k, In s added -> DbSetup.s_casting s = Some k ->
                    DbSetup.holds_key k t = false)
    /\ NoDup (DbSetup.stored_keys added).
Proof.
  unfold DbSetup.insert_or_ignore.
  destruct (DbSetup.v_years v) as [y|]; [|exists []; rewrite app_nil_r;
    split; [reflexivity | split; [intros ? ? [] | constructor]]].
  destruct (DbSetup.v_cid v) as [c|]; [|exists []; rewrite app_nil_r;
    split; [reflexivity | split; [intros ? ? [] | constructor]]].
  destruct (DbSetup.v_low_power v) as [l|]; [|exists []; rewrite app_nil_r;
    split; [reflexivity | split; [intros ? ? [] | constructor]]].
  destruct (DbSetup.v_high_power v) as [h|]; [|exists []; rewrite app_nil_r;
    split; [reflexivity | split; [intros ? ? [] | constructor]]].
  destruct (DbSetup.v_main_caps v) as [m|]; [|exists []; rewrite app_nil_r;
    split; [reflexivity | split; [intros ? ? [] | constructor]]].
  destruct (DbSetup.v_casting v) as [k|].
  - destruct (DbSetup.holds_key k t) eqn:Hk.
    + exists []. rewrite app_nil_r.
      split; [reflexivity | split; [intros ? ? [] | constructor]].
    + eexists [_]. split; [reflexivity|]. split.
      * intros s k' [<- | []]. simpl. intros E. now injection E as <-.
      * simpl. repeat constructor. intros [].
  - eexists [_]. split; [reflexivity|]. split.
    + intros s k' [<- | []]. discriminate.
    + simpl. constructor.
Qed.

Lemma stored_keys_In (k : string) (t : list DbSetup.stored) :
  In k (DbSetup.stored_keys t)
  <-> exists s, In s t /\ DbSetup.s_casting s = Some k.
Proof.
  unfold DbSetup.stored_keys. rewrite in_flat_map. split.
  - intros (s & Hs & Hk). exists s. split; [assumption|].
    destruct (DbSetup.s_casting s) as [k'|]; [|now elim Hk].
    destruct Hk as [<- | []]. reflexivity.
  - intros (s & Hs & Hk). exists s. split; [assumption|].
    rewrite Hk. now left.
Qed.

(** Rows whose keys are new to a table keep its keys apart. *)
Lemma stored_keys_apart (t added : list DbSetup.stored) :
  (forall s k, In s added -> DbSetup.s_casting s = Some k ->
               DbSetup.holds_key k t = false) ->
  NoDup (DbSetup.stored_keys t) -> NoDup (DbSetup.stored_keys added) ->
  NoDup (DbSetup.stored_keys (t ++ added)).
Proof.
  intros Hnew Ht Ha. rewrite stored_keys_app.
  apply NoDup_app; [assumption..|].
  intros k Hk Hk'. apply stored_keys_In in Hk' as (s & Hs & Hc).
  apply holds_key_In in Hk. rewrite (Hnew s k Hs Hc) in Hk. discriminate.
Qed.

Lemma insert_rows_extends (rows : list DbSetup.csv_row) (db : DbSetup.database) :
  exists added,
    DbSetup.in_transaction (snd (DbSetup.insert_rows rows db))
    = (DbSetup.in_transaction db ++ added)%list
    /\ DbSetup.on_disk (snd (DbSetup.insert_rows rows db)) = DbSetup.on_disk db
    /\ (forall s k, In s added -> DbSetup.s_casting s = Some k ->
                    DbSetup.holds_key k (DbSetup.in_transaction db) = false)
    /\ NoDup (DbSetup.stored_keys added).
Proof.
  revert db. induction rows as [|row rows IH]; intros db.
  - exists []. simpl. rewrite app_nil_r.
    repeat split; [intros ? ? [] | constructor].
  - simpl. destruct (DbSetup.insert_values row) as [e|v].
    + exists []. simpl. rewrite app_nil_r.
      repeat split; [intros ? ? [] | constructor].
    + destruct (insert_extends v (DbSetup.in_transaction db))
        as (a1 & E1 & New1 & Nd1).
      destruct (IH (DbSetup.execute_insert v db)) as (a2 & E2 & D2 & New2 & Nd2).
      simpl in E2, D2, New2. rewrite E1 in E2, New2.
      exists (a1 ++ a2)%list. split; [now rewrite E2, app_assoc|].
      split; [exact D2|]. split.
      * intros s k Hs Hk. apply in_app_or in Hs as [Hs | Hs].
        -- now apply (New1 s k).
        -- specialize (New2 s k Hs Hk). rewrite holds_key_app in New2.
           now apply orb_false_elim in New2.
      * apply stored_keys_apart; [|assumption..].
        intros s k Hs Hk. specialize (New2 s k Hs Hk).
        rewrite holds_key_app in New2. now apply orb_false_elim in New2.
Qed.

(** X1. When the header of the file lacks one of the six columns the INSERT
    reads and a line that is not blank follows it, the loader stops at that
    line with KeyError for the first column missing, in the order Casting
    ID, Years, CID, Low Power, High Power, Main Caps, before any insert:
    the table of castings.db is left exactly as it was. *)
Theorem loader_missing_column_loads_nothing
    (header : DbSetup.line) (lines : list DbSetup.line)
    (disk : list DbSetup.stored) (name : string) :
  DbSetup.first_missing header = Some name ->
  existsb (fun l => negb (DbSetup.is_blank l)) lines = true ->
  DbSetup.setup_database (header :: lines) disk
  = (Some (DbSetup.KeyError name), disk).
Proof.
  intros Hm Hl. unfold DbSetup.setup_database, DbSetup.dict_reader.
  destruct (filter (fun l => negb (DbSetup.is_blank l)) lines) as [|l ls] eqn:E.
  - apply existsb_exists in Hl as (l & Hin & Hnb).
    assert (In l (filter (fun l => negb (DbSetup.is_blank l)) lines)) as H
      by (apply filter_In; now split).
    rewrite E in H. destruct H.
  - cbn [map DbSetup.insert_rows].
    now rewrite (insert_values_missing header l name Hm).
Qed.

Lemma loader_missing_column_loads_nothing_witness :
  DbSetup.setup_database Scenario.csv_without_years (map DbSetup.of_record demo)
  = (Some (DbSetup.KeyError "Years"), map DbSetup.of_record demo).
Proof.
  apply (loader_missing_column_loads_nothing
           ["Casting ID"; "CID"; "Low Power"; "High Power"; "Main Caps"]
           [["1050123"; "ABC"; "150kW"; "310kW"; "Al"]]
           (map DbSetup.of_record demo) "Years").
  - reflexivity.
  - reflexivity.
Defined.

(** With every required column in the header, no line raises: a line that
    ends early has None where it ends. *)
Lemma rows_readable (file : list DbSetup.line) :
  DbSetup.full_header file = true ->
  Forall (fun row => exists v, DbSetup.insert_values row = inr v)
         (DbSetup.dict_reader file).
Proof.
  destruct file as [|header lines]; [constructor|].
  unfold DbSetup.full_header, DbSetup.dict_reader.
  destruct (DbSetup.first_missing header) eqn:Hm; [discriminate|]. intros _.
  apply Forall_forall. intros row Hrow.
  apply in_map_iff in Hrow as (l & <- & _).
  now apply insert_values_full.
Qed.

Lemma insert_rows_readable (rows : list DbSetup.csv_row) (db : DbSetup.database) :
  Forall (fun row => exists v, DbSetup.insert_values row = inr v) rows ->
  fst (DbSetup.insert_rows rows db) = None.
Proof.
  intros H. revert db. induction H as [|row rows (v & Hv) _ IH]; intros db.
  - reflexivity.
  - simpl. rewrite Hv. apply IH.
Qed.



(** *** A second run *)

Lemma insert_twice (v : DbSetup.values) (t : list DbSetup.stored) (k : string) :
  DbSetup.v_casting v = Some k ->
  DbSetup.insert_or_ignore v (DbSetup.insert_or_ignore v t)
  = DbSetup.insert_or_ignore v t.
Proof.
  intros Hk. rewrite !(insert_keyed v _ k Hk).
  destruct (DbSetup.record_of_values v) as [r|] eqn:Hr; [|reflexivity].
  destruct (DbSetup.holds_key k t) eqn:Ht; [now rewrite Ht|].
  rewrite holds_key_app. simpl.
  rewrite (record_of_values_casting v r k Hk Hr), String.eqb_refl.
  now rewrite orb_true_r.
Qed.

Lemma settled_grows (v v' : DbSetup.values) (t : list DbSetup.stored) (k : string) :
  DbSetup.v_casting v = Some k ->
  DbSetup.insert_or_ignore v t = t ->
  DbSetup.insert_or_ignore v (DbSetup.insert_or_ignore v' t)
  = DbSetup.insert_or_ignore v' t.
Proof.
  intros Hk. rewrite !(insert_keyed v _ k Hk).
  destruct (DbSetup.record_of_values v) as [r|]; [|reflexivity].
  destruct (DbSetup.holds_key k t) eqn:Ht.
  - intros _. destruct (insert_extends v' t) as (added & -> & _).
    now rewrite holds_key_app, Ht.
  - intros E. rewrite <- (app_nil_r t) in E at 2.
    apply app_inv_head in E. discriminate.
Qed.

Lemma settled_rows (v : DbSetup.values) (k : string)
    (rows : list DbSetup.csv_row) (db : DbSetup.database) :
  DbSetup.v_casting v = Some k ->
  DbSetup.insert_or_ignore v (DbSetup.in_transaction db)
  = DbSetup.in_transaction db ->
  let t := DbSetup.in_transaction (snd (DbSetup.insert_rows rows db)) in
  DbSetup.insert_or_ignore v t = t.
Proof.
  intros Hk. revert db. induction rows as [|row rows IH]; intros db H.
  - exact H.
  - simpl. destruct (DbSetup.insert_values row) as [e|v']; [exact H|].
    apply IH. simpl. now apply (settled_grows v v' _ k).
Qed.

Lemma readable_of_none (rows : list DbSetup.csv_row) (db : DbSetup.database) :
  fst (DbSetup.insert_rows rows db) = None ->
  Forall (fun row => exists v, DbSetup.insert_values row = inr v) rows.
Proof.
  revert db. induction rows as [|row rows IH]; intros db H; [constructor|].
  simpl in H. destruct (DbSetup.insert_values row) as [e|v] eqn:Hv;
    [discriminate|].
  constructor; [now exists v | now apply (IH _ H)].
Qed.

Lemma keyed_casting (row : DbSetup.csv_row) (v : DbSetup.values) :
  DbSetup.keyed_row row = true -> DbSetup.insert_values row = inr v ->
  exists k, DbSetup.v_casting v = Some k.
Proof.
  intros Hk Hv. unfold DbSetup.keyed_row in Hk.
  rewrite (insert_values_casting row v Hv) in Hk.
  destruct (DbSetup.v_casting v) as [k|]; [now exists k | discriminate].
Qed.

(** After a loop that read every row, each of its rows would be ignored. *)
Lemma rows_settled (rows : list DbSetup.csv_row) (db : DbSetup.database) :
  forallb DbSetup.keyed_row rows = true ->
  Forall (fun row => exists v, DbSetup.insert_values row = inr v) rows ->
  forall row v, In row rows -> DbSetup.insert_values row = inr v ->
    let t := DbSetup.in_transaction (snd (DbSetup.insert_rows rows db)) in
    DbSetup.insert_or_ignore v t = t.
Proof.
  intros Hk Hr. revert db Hk.
  induction Hr as [|row0 rows (v0 & Hv0) _ IH]; intros db Hk row v Hin Hv;
    [destruct Hin|].
  simpl in Hk. apply andb_prop in Hk as [Hk0 Hk].
  simpl. rewrite Hv0. destruct Hin as [<- | Hin].
  - assert (v = v0) as -> by congruence.
    destruct (keyed_casting row0 v0 Hk0 Hv0) as [k Hc].
    apply (settled_rows v0 k); [exact Hc|]. simpl. now apply (insert_twice v0 _ k).
  - exact (IH _ Hk row v Hin Hv).
Qed.

(** A loop whose every row is ignored leaves the database as it was. *)
Lemma insert_rows_noop (rows : list DbSetup.csv_row) (db : DbSetup.database) :
  Forall (fun row => exists v, DbSetup.insert_values row = inr v) rows ->
  (forall row v, In row rows -> DbSetup.insert_values row = inr v ->
     DbSetup.insert_or_ignore v (DbSetup.in_transaction db)
     = DbSetup.in_transaction db) ->
  DbSetup.insert_rows rows db = (None, db).
Proof.
  intros Hr. induction Hr as [|row rows (v & Hv) _ IH]; intros H; [reflexivity|].
  simpl. rewrite Hv.
  assert (DbSetup.execute_insert v db = db) as ->.
  { unfold DbSetup.execute_insert. rewrite (H row v) by (auto; now left).
    now destruct db. }
  apply IH. intros row' v' Hin. apply H. now right.
Qed.

Lemma setup_database_eq (file : list DbSetup.line) (disk : list DbSetup.stored) :
  DbSetup.setup_database file disk
  = let r := DbSetup.insert_rows (DbSetup.dict_reader file)
               (DbSetup.mk_database disk disk) in
    match fst r with
    | None => (None, DbSetup.in_transaction (snd r))
    | Some e => (Some e, DbSetup.on_disk (snd r))
    end.
Proof.
  unfold DbSetup.setup_database, DbSetup.commit. cbn [DbSetup.in_transaction].
  now destruct (DbSetup.insert_rows _ _) as [[e|] db'].
Qed.

(** X2. Over a file none of whose lines ends before the Casting ID column,
    running the loader again changes nothing: the second run ends as the
    first did and leaves the table the first left. *)
Theorem loader_is_idempotent
    (file : list DbSetup.line) (disk : list DbSetup.stored) :
  DbSetup.keyed file = true ->
  DbSetup.setup_database file (snd (DbSetup.setup_database file disk))
  = DbSetup.setup_database file disk.
Proof.
  intros Hk. unfold DbSetup.keyed in Hk.
  rewrite (setup_database_eq file disk). cbv zeta.
  set (db := DbSetup.mk_database disk disk).
  destruct (insert_rows_extends (DbSetup.dict_reader file) db) as (_ & _ & D & _).
  pose proof (readable_of_none (DbSetup.dict_reader file) db) as Hr.
  pose proof (rows_settled (DbSetup.dict_reader file) db Hk) as Hs.
  destruct (fst (DbSetup.insert_rows (DbSetup.dict_reader file) db)) as [e|] eqn:E;
    cbn [snd].
  - rewrite D. cbn [db DbSetup.on_disk].
    rewrite setup_database_eq. cbv zeta. fold db. now rewrite E, D.
  - specialize (Hr eq_refl). specialize (Hs Hr). cbv zeta in Hs.
    rewrite setup_database_eq. cbv zeta.
    rewrite insert_rows_noop; [reflexivity | exact Hr | exact Hs].
Qed.

Lemma loader_is_idempotent_witness :
  DbSetup.setup_database Scenario.csv
    (snd (DbSetup.setup_database Scenario.csv []))
  = DbSetup.setup_database Scenario.csv [].
Proof. apply (loader_is_idempotent Scenario.csv []). reflexivity. Defined.

(** Without the premise it fails: a line that ends before the Casting ID
    column and gives the five columns declared NOT NULL is stored under a
    NULL key, and stored once more by each run. *)
Example loader_repeats_null_keys :
  DbSetup.keyed Scenario.csv_short_of_key = false
  /\ List.length (snd (DbSetup.setup_database Scenario.csv_short_of_key [])) = 1%nat
  /\ List.length
       (snd (DbSetup.setup_database Scenario.csv_short_of_key
               (snd (DbSetup.setup_database Scenario.csv_short_of_key []))))
     = 2%nat.
Proof. repeat split; reflexivity. Qed.

(** A line that ends before the Comments column is stored with NULL
    comments; a blank line is skipped; a line that ends before a column
    declared NOT NULL is ignored. *)
Example load_short_lines :
  DbSetup.setup_database Scenario.csv_short_lines []
  = (None,
     [ DbSetup.mk_stored (Some "1050123") "2012-2015" "ABC" "150kW" "310kW" "Al"
                         None ]).
Proof. reflexivity. Qed.

(** *** The loaded table under the Data Service *)

Lemma of_record_inj (t u : list record) :
  map DbSetup.of_record t = map DbSetup.of_record u -> t = u.
Proof.
  revert u. induction t as [|r t IH]; intros [|r' u] H; try discriminate;
    [reflexivity|].
  cbn [map] in H.
  assert (DbSetup.of_record r = DbSetup.of_record r'
          /\ map DbSetup.of_record t = map DbSetup.of_record u) as [Hr Ht]
    by (split; congruence).
  f_equal; [|now apply IH].
  destruct r, r'. unfold DbSetup.of_record in Hr. simpl in Hr. congruence.
Qed.

(** Over rows that all have a key, the loop inserts the records of the rows
    that have the five columns after it. *)
Lemma insert_rows_records (rows : list DbSetup.csv_row)
    (disk : list DbSetup.stored) (t : list record) :
  Forall (fun row => exists v, DbSetup.insert_values row = inr v) rows ->
  forallb DbSetup.keyed_row rows = true ->
  DbSetup.insert_rows rows (DbSetup.mk_database disk (map DbSetup.of_record t))
  = (None,
     DbSetup.mk_database disk
       (map DbSetup.of_record
          (Store.setup_database (DbSetup.records_of_rows rows) t))).
Proof.
  intros Hr. revert t. induction Hr as [|row rows (v & Hv) _ IH]; intros t Hk.
  - reflexivity.
  - simpl in Hk. apply andb_prop in Hk as [Hk0 Hk].
    destruct (keyed_casting row v Hk0 Hv) as [k Hc].
    cbn [DbSetup.insert_rows DbSetup.records_of_rows]. rewrite Hv.
    unfold DbSetup.execute_insert. cbn [DbSetup.on_disk DbSetup.in_transaction].
    rewrite (insert_keyed v _ k Hc).
    destruct (DbSetup.record_of_values v) as [r|] eqn:Hrec; [|now apply IH].
    rewrite setup_cons. cbn [update].
    rewrite (record_of_values_casting v r k Hc Hrec), holds_key_of_records.
    destruct (has_key k t); [now apply IH|].
    rewrite <- (IH (t ++ [r])%list Hk). now rewrite map_app.
Qed.

Lemma setup_database_records (file : list DbSetup.line) (t : list record) :
  DbSetup.full_header file = true -> DbSetup.keyed file = true ->
  DbSetup.setup_database file (map DbSetup.of_record t)
  = (None, map DbSetup.of_record
             (Store.setup_database (DbSetup.records_of file) t)).
Proof.
  intros Hh Hk. rewrite setup_database_eq. cbv zeta.
  rewrite insert_rows_records; [reflexivity | now apply rows_readable | exact Hk].
Qed.

(** X4. Load, then look up. The header names the six required columns, no
    line ends before the Casting ID column, and the table before the load
    has no NULL key; the Data Service answers over the table the loader
    left. Then GET /lookup/<key>, for a key that is one path segment,
    returns the row that held the key before the load, else the record of
    the first line of the file with that key and a field in each required
    column (its comments being the empty string when the file has no
    Comments column), else 404 "Casting not found". *)
Theorem lookup_after_load
    (file : list DbSetup.line) (before : list record) (w : world) (key : string) :
  DbSetup.full_header file = true -> DbSetup.keyed file = true ->
  healthy w ->
  map DbSetup.of_record (table w)
  = snd (DbSetup.setup_database file (map DbSetup.of_record before)) ->
  is_segment key = true ->
  answer_of (get_lookup key w)
  = Some match find (same_key key) (before ++ DbSetup.records_of file) with
         | Some r => Return (full r)
         | None => Raise (HTTPException 404 "Casting not found")
         end.
Proof.
  intros Hh Hk Hw Ht Hs.
  rewrite setup_database_records in Ht by assumption. cbn [snd] in Ht.
  apply of_record_inj in Ht.
  rewrite (ServiceFacts.get_lookup_segment w key Hs),
    ServiceFacts.answer_of_entered.
  rewrite (ServiceFacts.lookup_healthy w key Hw). cbn [fst].
  rewrite Ht.
  change (fun r : record => String.eqb (casting r) key) with (same_key key).
  now rewrite setup_find.
Qed.

Lemma lookup_after_load_witness :
  answer_of (get_lookup "1050123"
               (serving (Store.setup_database (DbSetup.records_of Scenario.csv) [])))
  = Some match find (same_key "1050123") ([] ++ DbSetup.records_of Scenario.csv) with
         | Some r => Return (full r)
         | None => Raise (HTTPException 404 "Casting not found")
         end.
Proof.
  apply (lookup_after_load Scenario.csv []
           (serving (Store.setup_database (DbSetup.records_of Scenario.csv) []))
           "1050123").
  - reflexivity.
  - reflexivity.
  - apply ServiceFacts.serving_healthy.
  - reflexivity.
  - reflexivity.
Defined.

(** The file of the example, loaded into an empty table: the repeated key
    keeps the values of its first line. *)
Example load_example :
  DbSetup.setup_database Scenario.csv []
  = (None,
     map DbSetup.of_record
       [ mk_record "1050123" "2012-2015" "ABC" "150kW" "310kW" "Al" (Some "");
         mk_record "1002633" "2016-2018" "rear Drive" "100kW" "200kW" "Fe"
                   (Some "") ]).
Proof. reflexivity. Qed.

End LoaderFacts.

(** ** More on the Data Service *)

Module ServiceMore.
Import Store DataService Spec.

#[local] Arguments Ascii.eqb : simpl never.

(** *** Failing statements *)

(** X5. Once the connection is open, a statement that sqlite3 refuses with
    message [msg] makes the handler raise the HTTP error 500 with the detail
    "Database error: msg": the lookup statement, the count or the page
    statement of the listing, the LIKE statement of the search. *)
Theorem store_error_is_reported (w : world) (msg : string) :
  connect_fault w = None ->
  let error := HTTPException 500 ("Database error: " ++ msg) in
  (forall key,
      execute_fault w (SelectByCasting key) = Some msg ->
      fst (route_lookup key w) = Raise error)
  /\ (forall page limit,
        execute_fault w SelectCount = Some msg ->
        fst (run (get_castings page limit) w) = Raise error)
  /\ (forall page limit,
        execute_fault w SelectCount = None ->
        execute_fault w (SelectPage limit ((page - 1) * limit)) = Some msg ->
        fst (run (get_castings page limit) w) = Raise error)
  /\ (forall q,
        let pat := "%" ++ q ++ "%" in
        execute_fault w (SelectLike pat pat pat pat) = Some msg ->
        fst (run (search_castings q) w) = Raise error).
Proof.
  destruct w as [t cf ef oc nc ex]. simpl. intros ->.
  split; [|split; [|split]].
  - intros key He.
    unfold route_lookup, run, lookup_casting, try_except_finally, bind,
      connect, execute, close, get_conn, bind, set_env, database_error, raise, ret.
    simpl. rewrite He. simpl. rewrite ?Nat.eqb_refl. reflexivity.
  - intros page limit He.
    unfold run, get_castings, try_except_finally, bind,
      connect, execute, close, get_conn, bind, set_env, database_error, raise, ret.
    simpl. rewrite He. simpl. rewrite ?Nat.eqb_refl. reflexivity.
  - intros page limit Hc He.
    unfold run, get_castings, try_except_finally, bind,
      connect, execute, close, get_conn, bind, set_env, database_error, raise, ret.
    simpl. rewrite Hc. simpl. rewrite He. simpl. rewrite ?Nat.eqb_refl. reflexivity.
  - intros q He.
    unfold run, search_castings, try_except_finally, bind,
      connect, execute, close, get_conn, bind, set_env, database_error, raise, ret.
    simpl. rewrite He. simpl. rewrite ?Nat.eqb_refl. reflexivity.
Qed.

Lemma store_error_is_reported_witness :
  let w := Scenario.failing demo "disk I/O error" in
  let error := HTTPException 500 ("Database error: " ++ "disk I/O error") in
  (forall key,
      execute_fault w (SelectByCasting key) = Some "disk I/O error" ->
      fst (route_lookup key w) = Raise error)
  /\ (forall page limit,
        execute_fault w SelectCount = Some "disk I/O error" ->
        fst (run (get_castings page limit) w) = Raise error)
  /\ (forall page limit,
        execute_fault w SelectCount = None ->
        execute_fault w (SelectPage limit ((page - 1) * limit)) = Some "disk I/O error" ->
        fst (run (get_castings page limit) w) = Raise error)
  /\ (forall q,
        let pat := "%" ++ q ++ "%" in
        execute_fault w (SelectLike pat pat pat pat) = Some "disk I/O error" ->
        fst (run (search_castings q) w) = Raise error).
Proof.
  intros w.
  apply (store_error_is_reported w "disk I/O error"). reflexivity.
Defined.

(** X6. Once sqlite3.connect has succeeded, each handler opens exactly one
    connection and has closed it when it ends, whether its statements
    succeed, fail in sqlite3 or cannot be bound: the connections open after
    the request are those open before it. *)
Theorem every_connection_is_closed (w : world) :
  connect_fault w = None ->
  (forall casting,
      let w' := snd (route_lookup casting w) in
      open_conns w' = open_conns w /\ next_conn w' = S (next_conn w))
  /\ (forall page limit,
        let w' := snd (run (get_castings page limit) w) in
        open_conns w' = open_conns w /\ next_conn w' = S (next_conn w))
  /\ (forall q,
        let w' := snd (run (search_castings q) w) in
        open_conns w' = open_conns w /\ next_conn w' = S (next_conn w)).
Proof.
  destruct w as [t cf ef oc nc ex]. simpl. intros ->.
  split; [|split].
  - intros casting.
    unfold route_lookup, run, lookup_casting, try_except_finally, bind,
      connect, execute, close, get_conn, bind, set_env, database_error, raise, ret.
    simpl. destruct (ef (SelectByCasting casting)); simpl;
      rewrite ?Nat.eqb_refl; [now split|].
    destruct (fetchone _); simpl; rewrite ?Nat.eqb_refl; now split.
  - intros page limit.
    unfold run, get_castings, try_except_finally, bind,
      connect, execute, close, get_conn, bind, set_env, database_error, raise, ret.
    simpl. destruct (ef SelectCount); simpl;
      rewrite ?Nat.eqb_refl; [now split|].
    destruct (ef (SelectPage _ _)); simpl; rewrite ?Nat.eqb_refl; [now split|].
    destruct (fits_int64 limit && fits_int64 _); simpl;
      rewrite ?Nat.eqb_refl; now split.
  - intros q.
    unfold run, search_castings, try_except_finally, bind,
      connect, execute, close, get_conn, bind, set_env, database_error, raise, ret.
    simpl. destruct (ef (SelectLike _ _ _ _)); simpl;
      rewrite ?Nat.eqb_refl; now split.
Qed.

Lemma every_connection_is_closed_witness :
  let w := Scenario.failing demo "disk I/O error" in
  (forall casting,
      let w' := snd (route_lookup casting w) in
      open_conns w' = open_conns w /\ next_conn w' = S (next_conn w))
  /\ (forall page limit,
        let w' := snd (run (get_castings page limit) w) in
        open_conns w' = open_conns w /\ next_conn w' = S (next_conn w))
  /\ (forall q,
        let w' := snd (run (search_castings q) w) in
        open_conns w' = open_conns w /\ next_conn w' = S (next_conn w)).
Proof.
  intros w. apply (every_connection_is_closed w). reflexivity.
Defined.

(** *** Pages past the end *)

(** X7. A page past the last one is no error: over a store that answers, a
    valid page whose offset (page-1)*limit fits a signed 64-bit integer and
    reaches or passes the number of rows (any such page of an empty table
    among them) is answered 200 with an empty list, the total, and a
    total_pages below the page asked for. *)
Theorem page_past_the_end_is_empty (w : world) (page limit : Z) :
  healthy w -> 1 <= page -> 1 <= limit <= 100 ->
  (page - 1) * limit <= max_int64 ->
  Z.of_nat (List.length (table w)) <= (page - 1) * limit ->
  exists resp,
    fst (route_castings (Some page) (Some limit) w) = Return resp
    /\ r_castings resp = []
    /\ r_total resp = Z.of_nat (List.length (table w))
    /\ r_page resp = page
    /\ r_total_pages resp < page.
Proof.
  intros H Hp Hl Ho Hpast.
  eexists. rewrite ServiceFacts.castings_page by assumption.
  split; [reflexivity|]. cbn [r_castings r_total r_page r_total_pages].
  split; [|split; [reflexivity | split; [reflexivity|]]].
  - rewrite skipn_all2; [now rewrite firstn_nil|].
    rewrite StoreFacts.order_length. lia.
  - pose proof (ServiceFacts.ceil_div (Z.of_nat (List.length (table w))) limit
                  ltac:(lia) ltac:(lia)) as [Hlo _].
    nia.
Qed.

Lemma page_past_the_end_is_empty_witness :
  exists resp,
    fst (route_castings (Some 3) (Some 2) (serving demo)) = Return resp
    /\ r_castings resp = []
    /\ r_total resp = Z.of_nat (List.length (table (serving demo)))
    /\ r_page resp = 3
    /\ r_total_pages resp < 3.
Proof.
  apply (page_past_the_end_is_empty (serving demo) 3 2).
  - apply ServiceFacts.serving_healthy.
  - lia.
  - lia.
  - unfold max_int64. lia.
  - simpl. lia.
Defined.

(** *** From a listing or a search to the record *)



Lemma route_search_healthy (w : world) (q : string) :
  healthy w -> q <> "" ->
  let pat := "%" ++ q ++ "%" in
  let hits := filter (like_row pat pat pat pat) (order_by_casting (table w)) in
  route_search (Some q) w =
  (Return {| r_results := map full hits;
             r_query := q;
             r_count := Z.of_nat (List.length hits) |},
   after w [SelectLike pat pat pat pat]).
Proof.
  intros H Hq pat hits. unfold route_search, validate_str.
  destruct q as [|c q]; [contradiction|]. cbn [String.length Nat.leb].
  now rewrite ServiceFacts.search_healthy.
Qed.






End ServiceMore.

(** ** The case of a query *)

Module CaseFacts.
Import Store DataService Spec Text.

#[local] Arguments Ascii.eqb : simpl never.

Lemma lower_percent (c : ascii) : Ascii.eqb (lower c) "%" = Ascii.eqb c "%".
Proof. destruct c as [[] [] [] [] [] [] [] []]; reflexivity. Qed.

Lemma lower_underscore (c : ascii) : Ascii.eqb (lower c) "_" = Ascii.eqb c "_".
Proof. destruct c as [[] [] [] [] [] [] [] []]; reflexivity. Qed.

Lemma fold_case_app (a b : string) :
  fold_case (a ++ b) = fold_case a ++ fold_case b.
Proof. induction a as [|c a IH]; simpl; [reflexivity | now rewrite IH]. Qed.

Lemma lower_nul (c : ascii) : is_nul (lower c) = is_nul c.
Proof. destruct c as [[] [] [] [] [] [] [] []]; reflexivity. Qed.

Lemma c_string_fold_case (p1 p2 : string) :
  fold_case p1 = fold_case p2 ->
  fold_case (c_string p1) = fold_case (c_string p2).
Proof.
  revert p2. induction p1 as [|c1 p1 IH]; intros [|c2 p2] H;
    try discriminate; [reflexivity|].
  simpl in H. injection H as Hc Hp. cbn [c_string].
  rewrite <- (lower_nul c1), <- (lower_nul c2), Hc.
  destruct (is_nul (lower c2)); [reflexivity|].
  cbn [fold_case]. now rewrite Hc, (IH p2 Hp).
Qed.

(** The comparison reads a pattern up to the case of its ASCII letters. *)
Lemma pattern_compare_fold_case (p1 p2 s : string) :
  fold_case p1 = fold_case p2 -> pattern_compare p1 s = pattern_compare p2 s.
Proof.
  revert p2 s. induction p1 as [|c1 p1 IH]; intros [|c2 p2] s H;
    try discriminate; [reflexivity|].
  simpl in H. injection H as Hc Hp.
  assert (Ascii.eqb c1 "%" = Ascii.eqb c2 "%") as Hpc
    by (rewrite <- (lower_percent c1), <- (lower_percent c2); now rewrite Hc).
  assert (Ascii.eqb c1 "_" = Ascii.eqb c2 "_") as Hus
    by (rewrite <- (lower_underscore c1), <- (lower_underscore c2); now rewrite Hc).
  destruct (Ascii.eqb c1 "%") eqn:E1.
  - symmetry in Hpc. apply Ascii.eqb_eq in E1, Hpc. subst c1 c2.
    induction s as [|d s IHs].
    + rewrite !TextFacts.like_percent_step. now rewrite (IH p2 "" Hp).
    + rewrite (TextFacts.like_percent_step p1), (TextFacts.like_percent_step p2).
      now rewrite (IH p2 _ Hp), IHs.
  - simpl. rewrite E1, <- Hpc.
    destruct s as [|d s]; [reflexivity|].
    unfold eqb_nocase. now rewrite Hus, Hc, (IH p2 s Hp).
Qed.

(** LIKE reads a pattern up to the case of its ASCII letters. *)
Lemma like_fold_case (p1 p2 s : string) :
  fold_case p1 = fold_case p2 -> like p1 s = like p2 s.
Proof.
  intros H. unfold like.
  now apply pattern_compare_fold_case, c_string_fold_case.
Qed.

(** X10. /search does not see the case of the ASCII letters of the query:
    over a store that answers, two queries that differ only in the case of
    their letters get the same results and the same count. *)
Theorem search_ignores_query_case (w : world) (q1 q2 : string) :
  healthy w -> q1 <> "" -> fold_case q1 = fold_case q2 ->
  exists r1 r2,
    fst (route_search (Some q1) w) = Return r1
    /\ fst (route_search (Some q2) w) = Return r2
    /\ r_results r1 = r_results r2
    /\ r_count r1 = r_count r2.
Proof.
  intros H Hq1 Hfold.
  assert (q2 <> "") as Hq2.
  { intros ->. destruct q1; [contradiction | discriminate]. }
  do 2 eexists.
  rewrite !ServiceMore.route_search_healthy by assumption. cbn [fst].
  split; [reflexivity|]. split; [reflexivity|]. cbn [r_results r_count].
  assert (forall r,
            like_row ("%" ++ q1 ++ "%") ("%" ++ q1 ++ "%") ("%" ++ q1 ++ "%")
                     ("%" ++ q1 ++ "%") r
            = like_row ("%" ++ q2 ++ "%") ("%" ++ q2 ++ "%") ("%" ++ q2 ++ "%")
                       ("%" ++ q2 ++ "%") r) as Hrow.
  { intros r. unfold like_row, like_null.
    assert (forall s, like ("%" ++ q1 ++ "%") s = like ("%" ++ q2 ++ "%") s) as Hl.
    { intros s. apply like_fold_case.
      rewrite !fold_case_app. now rewrite Hfold. }
    rewrite !Hl. destruct (comments r); [now rewrite Hl | reflexivity]. }
  rewrite (filter_ext _ _ Hrow). split; reflexivity.
Qed.

Lemma search_ignores_query_case_witness :
  exists r1 r2,
    fst (route_search (Some "DRIVE") (serving demo)) = Return r1
    /\ fst (route_search (Some "drive") (serving demo)) = Return r2
    /\ r_results r1 = r_results r2
    /\ r_count r1 = r_count r2.
Proof.
  apply (search_ignores_query_case (serving demo) "DRIVE" "drive").
  - apply ServiceFacts.serving_healthy.
  - discriminate.
  - reflexivity.
Defined.

End CaseFacts.

(** ** More on the Presentation Layer *)

Module WebMore.
Import Flask.

(** *** What each view does with the answer it gets *)

Lemma index_outcome (req : request) (n : net) (input : string) :
  method req = "POST" -> get (form req) "casting" = Some input -> input <> "" ->
  fst (WebApp.index req n)
  = match service n ("http://localhost:8000/lookup/" ++ Text.strip input) with
    | Response code content =>
        if code =? 200 then
          match content with
          | Json data => Template "index.html" [("data", data)]
          | Malformed why =>
              Template "index.html"
                [("error", JStr ("Unable to connect to API: " ++ why))]
          end
        else if code =? 404 then
          Template "index.html" [("error", JStr "Casting not found")]
        else
          let fallback := JStr ("API Error: " ++ Text.str_of_int code) in
          Template "index.html"
            [("error",
              match content with
              | Json (JDict error_data) =>
                  match get error_data "detail" with
                  | Some detail => detail
                  | None => fallback
                  end
              | _ => fallback
              end)]
    | RequestException e =>
        Template "index.html" [("error", JStr ("Unable to connect to API: " ++ e))]
    end.
Proof.
  intros Hm Hc Hne. unfold WebApp.index. rewrite Hm, Hc.
  cbn [String.eqb Ascii.eqb Bool.eqb].
  destruct input as [|c rest]; [contradiction|].
  unfold requests_get, render_template. cbn [fst].
  change (api ++ "/lookup/" ++ Text.strip (String c rest))
    with ("http://localhost:8000/lookup/" ++ Text.strip (String c rest)).
  destruct (service n _) as [code content | e]; [|reflexivity].
  destruct (code =? 200); [now destruct content|].
  destruct (code =? 404); reflexivity.
Qed.

Lemma browse_outcome (req : request) (n : net) :
  fst (WebApp.browse req n)
  = match service n ("http://localhost:8000/castings?page="
                       ++ Text.str_of_int (get_int (args req) "page" 1)
                       ++ "&limit=20") with
    | Response code content =>
        if code =? 200 then
          match content with
          | Json data => render_template_star "browse.html" [] data
          | Malformed why =>
              Template "browse.html"
                [("error", JStr ("Unable to connect to API: " ++ why))]
          end
        else
          Template "browse.html"
            [("error", JStr ("API Error: " ++ Text.str_of_int code))]
    | RequestException e =>
        Template "browse.html" [("error", JStr ("Unable to connect to API: " ++ e))]
    end.
Proof. reflexivity. Qed.

Lemma export_outcome (casting : string) (n : net) :
  fst (WebApp.export casting n)
  = match service n ("http://localhost:8000/lookup/" ++ casting) with
    | Response code content =>
        if code =? 200 then
          match content with
          | Json data =>
              Attachment data
                [("Content-Disposition",
                  "attachment; filename=tesla_casting_" ++ casting ++ ".json");
                 ("Content-type", "application/json")]
          | Malformed _ => Plain "Error: Unable to fetch data" 500
          end
        else Plain "Error: Casting not found" 404
    | RequestException _ => Plain "Error: Unable to fetch data" 500
    end.
Proof. reflexivity. Qed.

Lemma src_search_outcome (req : request) (n : net) (query : string) :
  method req = "POST" -> get (form req) "query" = Some query -> query <> "" ->
  fst (SrcWebApp.search req n)
  = match service n ("http://localhost:8000/search?q=" ++ query) with
    | Response code content =>
        if code =? 200 then
          match content with
          | Json data => render_template_star "search.html" [] data
          | Malformed why =>
              Template "search.html"
                [("error", JStr ("Unable to connect to API: " ++ why));
                 ("query", JStr query)]
          end
        else
          Template "search.html"
            [("error", JStr ("API Error: " ++ Text.str_of_int code));
             ("query", JStr query)]
    | RequestException e =>
        Template "search.html"
          [("error", JStr ("Unable to connect to API: " ++ e));
           ("query", JStr query)]
    end.
Proof.
  intros Hm Hq Hne. unfold SrcWebApp.search. rewrite Hm, Hq.
  cbn [String.eqb Ascii.eqb Bool.eqb].
  destruct query as [|c rest]; [contradiction|]. reflexivity.
Qed.

Lemma search_outcome (req : request) (n : net) (query : string) :
  method req = "POST" -> get (form req) "query" = Some query -> query <> "" ->
  fst (WebApp.search req n)
  = match service n ("http://localhost:8000/search?q=" ++ query) with
    | Response code content =>
        if code =? 200 then
          match content with
          | Json data =>
              render_template_star "search.html" [("query", JStr query)] data
          | Malformed why =>
              Template "search.html"
                [("error", JStr ("Unable to connect to API: " ++ why))]
          end
        else
          Template "search.html"
            [("error", JStr ("API Error: " ++ Text.str_of_int code));
             ("query", JStr query)]
    | RequestException e =>
        Template "search.html" [("error", JStr ("Unable to connect to API: " ++ e))]
    end.
Proof.
  intros Hm Hq Hne. unfold WebApp.search. rewrite Hm, Hq.
  cbn [String.eqb Ascii.eqb Bool.eqb].
  destruct query as [|c rest]; [contradiction|]. reflexivity.
Qed.

(** *** Views that cannot fail *)



(** X12. The browse view does not survive a 200 answer whose JSON is not an
    object: unpacking it as keyword arguments of render_template raises
    TypeError, which nothing in the view catches. *)
Theorem browse_raises_on_non_object (req : request) (n : net) (data : json) :
  service n ("http://localhost:8000/castings?page="
               ++ Text.str_of_int (get_int (args req) "page" 1) ++ "&limit=20")
  = Response 200 (Json data) ->
  (forall d, data <> JDict d) ->
  fst (WebApp.browse req n)
  = Uncaught (TypeError "argument after ** must be a mapping")
  /\ status_of (fst (WebApp.browse req n)) = 500.
Proof.
  intros Hs Hd. rewrite browse_outcome, Hs. cbn [Z.eqb Pos.eqb].
  destruct data as [| b | z | s | l | d]; try (split; reflexivity).
  now elim (Hd d).
Qed.

Lemma browse_raises_on_non_object_witness :
  let req := mk_request "GET" [] [] in
  let n := mk_net (fun _ => Response 200 (Json (JList []))) [] in
  fst (WebApp.browse req n)
  = Uncaught (TypeError "argument after ** must be a mapping")
  /\ status_of (fst (WebApp.browse req n)) = 500.
Proof.
  intros req n. apply (browse_raises_on_non_object req n (JList [])).
  - reflexivity.
  - intros d. discriminate.
Defined.

(** *** Search forms *)

(** X13. Both copies of the search view answer a request that is not a POST,
    and a submission whose query is absent or empty, with the bare form and
    without any request to the Data Service. *)
Theorem empty_search_shows_the_form (req : request) (n : net) :
  method req <> "POST" \/ get (form req) "query" = None
  \/ get (form req) "query" = Some "" ->
  WebApp.search req n = (Template "search.html" [], n)
  /\ SrcWebApp.search req n = (Template "search.html" [], n).
Proof.
  unfold WebApp.search, SrcWebApp.search.
  intros [Hm | [Hq | Hq]].
  - apply String.eqb_neq in Hm. now rewrite Hm.
  - rewrite Hq. now destruct (String.eqb (method req) "POST").
  - rewrite Hq. now destruct (String.eqb (method req) "POST").
Qed.

Lemma empty_search_shows_the_form_witness :
  let req := mk_request "POST" [("query", "")] [] in
  let n := mk_net (fun _ => RequestException "Connection refused") [] in
  WebApp.search req n = (Template "search.html" [], n)
  /\ SrcWebApp.search req n = (Template "search.html" [], n).
Proof.
  intros req n. apply (empty_search_shows_the_form req n).
  right. right. reflexivity.
Defined.

(** X14. The second copy of the search view keeps what the user typed: for a
    submitted query, whenever the Data Service answers with a status other
    than 200 or cannot be reached, search.html is rendered with an error
    message and with the query as submitted. *)
Theorem src_search_failure_keeps_query (req : request) (n : net) (query : string) :
  method req = "POST" -> get (form req) "query" = Some query -> query <> "" ->
  (forall content,
      service n ("http://localhost:8000/search?q=" ++ query)
      <> Response 200 content) ->
  exists message,
    fst (SrcWebApp.search req n)
    = Template "search.html" [("error", JStr message); ("query", JStr query)].
Proof.
  intros Hm Hq Hne Hfail.
  rewrite (src_search_outcome req n query Hm Hq Hne).
  destruct (service n _) as [code content | e]; [|now eexists].
  destruct (Z.eqb_spec code 200) as [-> | Hc]; [|now eexists].
  now elim (Hfail content).
Qed.

Lemma src_search_failure_keeps_query_witness :
  let req := mk_request "POST" [("query", "abc")] [] in
  let n := mk_net (fun _ => RequestException "Connection refused") [] in
  exists message,
    fst (SrcWebApp.search req n)
    = Template "search.html" [("error", JStr message); ("query", JStr "abc")].
Proof.
  intros req n.
  apply (src_search_failure_keeps_query req n "abc").
  - reflexivity.
  - reflexivity.
  - discriminate.
  - intros content. discriminate.
Defined.

End WebMore.

(** ** The two layers together *)

Module EndToEnd.
Import Store Flask Spec.

Lemma answers_return_inv {A} (to_json : A -> json) (a : A) (r : reply) :
  Wire.answers to_json (DataService.Return a) r ->
  r = Response 200 (Json (to_json a)).
Proof. intros H. now inversion H. Qed.

Lemma answers_http_inv {A} (to_json : A -> json) (code : Z) (detail : string)
    (r : reply) :
  Wire.answers to_json
    (DataService.Raise (DataService.HTTPException code detail)) r ->
  r = Response code (Json (JDict [("detail", JStr detail)])).
Proof. intros H. now inversion H. Qed.

Lemma answers_invalid_inv {A} (to_json : A -> json) (r : reply) :
  Wire.answers to_json (DataService.Raise DataService.RequestValidationError) r ->
  exists content, r = Response 422 content.
Proof. intros H. inversion H. now eexists. Qed.

Lemma strip_nonempty (input : string) : Text.strip input <> "" -> input <> "".
Proof. intros H ->. now apply H. Qed.

(** X15. Single lookup, end to end: when the Data Service behind the lookup
    URL answers as [lookup_casting] does over a store that answers, the view
    renders the stored record of the trimmed identifier, field by field,
    when the table holds it, and the message "Casting not found" when it
    does not. *)
Theorem single_lookup_end_to_end
    (w : DataService.world) (req : request) (n : net) (input : string) :
  DataService.healthy w -> unique_keys (DataService.table w) ->
  method req = "POST" -> get (form req) "casting" = Some input ->
  Text.strip input <> "" ->
  Wire.answers Wire.json_of_casting
    (fst (DataService.route_lookup (Text.strip input) w))
    (service n ("http://localhost:8000/lookup/" ++ Text.strip input)) ->
  (forall r, In r (DataService.table w) -> casting r = Text.strip input ->
     fst (WebApp.index req n)
     = Template "index.html" [("data", Wire.json_of_casting (full r))])
  /\ (~ In (Text.strip input) (keys (DataService.table w)) ->
      fst (WebApp.index req n)
      = Template "index.html" [("error", JStr "Casting not found")]).
Proof.
  intros Hw Hu Hm Hc Hs Hans.
  rewrite (WebMore.index_outcome req n input Hm Hc (strip_nonempty _ Hs)).
  rewrite (ServiceFacts.lookup_healthy w _ Hw) in Hans. cbn [fst] in Hans.
  split.
  - intros r Hin Hk. rewrite <- Hk in Hans.
    rewrite ServiceFacts.find_unique in Hans by assumption.
    apply answers_return_inv in Hans. rewrite <- Hk, Hans. reflexivity.
  - intros Hn. rewrite ServiceFacts.find_absent in Hans by assumption.
    apply answers_http_inv in Hans. rewrite Hans. reflexivity.
Qed.

Lemma single_lookup_end_to_end_witness :
  let w := DataService.serving demo in
  let req := mk_request "POST" [("casting", " 1050123 ")] [] in
  let n := mk_net (fun _ => Response 200
                     (Json (Wire.json_of_casting
                              (full (mk_record "1050123" "2012-2015" "ABC" "150kW"
                                               "310kW" "Al" (Some ""))))))
                  [] in
  (forall r, In r (DataService.table w) -> casting r = Text.strip " 1050123 " ->
     fst (WebApp.index req n)
     = Template "index.html" [("data", Wire.json_of_casting (full r))])
  /\ (~ In (Text.strip " 1050123 ") (keys (DataService.table w)) ->
      fst (WebApp.index req n)
      = Template "index.html" [("error", JStr "Casting not found")]).
Proof.
  intros w req n.
  apply (single_lookup_end_to_end w req n " 1050123 ").
  - apply ServiceFacts.serving_healthy.
  - apply ServiceFacts.demo_unique.
  - reflexivity.
  - reflexivity.
  - discriminate.
  - apply (Wire.answers_return Wire.json_of_casting).
Defined.

Lemma lookup_statement_fails (w : DataService.world) (key msg : string) :
  DataService.connect_fault w = None ->
  DataService.execute_fault w (SelectByCasting key) = Some msg ->
  fst (DataService.route_lookup key w)
  = DataService.Raise (DataService.HTTPException 500 ("Database error: " ++ msg)).
Proof.
  destruct w as [t cf ef oc nc ex]. simpl. intros -> He.
  unfold DataService.route_lookup, DataService.run, DataService.lookup_casting,
    DataService.try_except_finally, DataService.bind, DataService.connect,
    DataService.execute, DataService.close, DataService.get_conn,
    DataService.bind, DataService.set_env, DataService.database_error,
    DataService.raise, DataService.ret.
  simpl. rewrite He. simpl. rewrite ?Nat.eqb_refl. reflexivity.
Qed.

(** X16. A store error reaches the user as its message: when the lookup
    statement fails with [msg] and the Data Service answers as
    [lookup_casting] does, the single-lookup view shows the detail of the
    500 answer, "Database error: msg". *)
Theorem single_lookup_shows_store_error
    (w : DataService.world) (req : request) (n : net) (input msg : string) :
  DataService.connect_fault w = None ->
  DataService.execute_fault w (SelectByCasting (Text.strip input)) = Some msg ->
  method req = "POST" -> get (form req) "casting" = Some input -> input <> "" ->
  Wire.answers Wire.json_of_casting
    (fst (DataService.route_lookup (Text.strip input) w))
    (service n ("http://localhost:8000/lookup/" ++ Text.strip input)) ->
  fst (WebApp.index req n)
  = Template "index.html" [("error", JStr ("Database error: " ++ msg))].
Proof.
  intros Hcf Hef Hm Hc Hne Hans.
  rewrite (WebMore.index_outcome req n input Hm Hc Hne).
  rewrite (lookup_statement_fails w _ msg Hcf Hef) in Hans.
  apply answers_http_inv in Hans. rewrite Hans. reflexivity.
Qed.

Lemma single_lookup_shows_store_error_witness :
  let w := Scenario.failing demo "disk I/O error" in
  let req := mk_request "POST" [("casting", "1050123")] [] in
  let n := mk_net (fun _ => Response 500
                     (Json (JDict [("detail",
                                    JStr "Database error: disk I/O error")]))) [] in
  fst (WebApp.index req n)
  = Template "index.html" [("error", JStr ("Database error: " ++ "disk I/O error"))].
Proof.
  intros w req n.
  apply (single_lookup_shows_store_error w req n "1050123" "disk I/O error").
  - reflexivity.
  - reflexivity.
  - reflexivity.
  - reflexivity.
  - discriminate.
  - apply (Wire.answers_http Wire.json_of_casting).
Defined.

(** X17. Browse, end to end: when the Data Service behind the listing URL
    answers as [get_castings] does over a store that answers, the page
    number read from the request (at least 1, its offset within 64 bits)
    gets browse.html with the variables castings, total, page, limit and
    total_pages, castings being the 20 rows at offset (page-1)*20 of the
    table in key order, projected to casting, years and cid. *)
Theorem browse_end_to_end
    (w : DataService.world) (req : request) (n : net) (page : Z) :
  DataService.healthy w -> get_int (args req) "page" 1 = page ->
  1 <= page -> (page - 1) * 20 <= max_int64 ->
  Wire.answers Wire.json_of_castings
    (fst (DataService.route_castings (Some page) (Some 20) w))
    (service n ("http://localhost:8000/castings?page=" ++ Text.str_of_int page
                  ++ "&limit=20")) ->
  let total := Z.of_nat (List.length (DataService.table w)) in
  fst (WebApp.browse req n)
  = Template "browse.html"
      [("castings",
        JList (map Wire.json_of_summary
                 (map summary
                    (firstn 20 (skipn (Z.to_nat ((page - 1) * 20))
                                  (order_by_casting (DataService.table w)))))));
       ("total", JInt total);
       ("page", JInt page);
       ("limit", JInt 20);
       ("total_pages", JInt ((total + 20 - 1) / 20))].
Proof.
  intros Hw Hpage Hp Ho Hans total.
  rewrite WebMore.browse_outcome, Hpage.
  rewrite ServiceFacts.castings_page in Hans by (auto; lia).
  cbn [fst] in Hans. apply answers_return_inv in Hans. rewrite Hans.
  cbn [Z.eqb Pos.eqb]. unfold Wire.json_of_castings.
  rewrite WebFacts.star_without_keywords by reflexivity. reflexivity.
Qed.

Lemma browse_end_to_end_witness :
  let w := DataService.serving demo in
  let req := mk_request "GET" [] [("page", "1")] in
  let n := mk_net (fun _ => Response 200
                     (Json (Wire.json_of_castings
                              {| DataService.r_castings :=
                                   map summary (order_by_casting demo);
                                 DataService.r_total := 3;
                                 DataService.r_page := 1;
                                 DataService.r_limit := 20;
                                 DataService.r_total_pages := 1 |}))) [] in
  let total := Z.of_nat (List.length (DataService.table w)) in
  fst (WebApp.browse req n)
  = Template "browse.html"
      [("castings",
        JList (map Wire.json_of_summary
                 (map summary
                    (firstn 20 (skipn (Z.to_nat ((1 - 1) * 20))
                                  (order_by_casting (DataService.table w)))))));
       ("total", JInt total);
       ("page", JInt 1);
       ("limit", JInt 20);
       ("total_pages", JInt ((total + 20 - 1) / 20))].
Proof.
  intros w req n.
  apply (browse_end_to_end w req n 1).
  - apply ServiceFacts.serving_healthy.
  - reflexivity.
  - lia.
  - unfold max_int64. lia.
  - apply (Wire.answers_return Wire.json_of_castings).
Defined.

(** X18. A page number below 1 that parses is passed on as it is: the Data
    Service rejects it (422) and the browse view shows "API Error: 422"
    in place of the table. *)
Theorem browse_shows_rejected_page
    (w : DataService.world) (req : request) (n : net) (page : Z) :
  get_int (args req) "page" 1 = page -> page < 1 ->
  Wire.answers Wire.json_of_castings
    (fst (DataService.route_castings (Some page) (Some 20) w))
    (service n ("http://localhost:8000/castings?page=" ++ Text.str_of_int page
                  ++ "&limit=20")) ->
  fst (WebApp.browse req n)
  = Template "browse.html" [("error", JStr "API Error: 422")].
Proof.
  intros Hpage Hp Hans.
  rewrite WebMore.browse_outcome, Hpage.
  assert (DataService.route_castings (Some page) (Some 20) w
          = (DataService.Raise DataService.RequestValidationError, w)) as E.
  { unfold DataService.route_castings, DataService.validate_int. simpl.
    destruct (1 <=? page) eqn:E1; [apply Z.leb_le in E1; lia | reflexivity]. }
  rewrite E in Hans. cbn [fst] in Hans.
  apply answers_invalid_inv in Hans as [content Hans]. rewrite Hans.
  reflexivity.
Qed.

Lemma browse_shows_rejected_page_witness :
  let w := DataService.serving demo in
  let req := mk_request "GET" [] [("page", "0")] in
  let n := mk_net (fun _ => Response 422 (Json (JDict [("detail", JList [])]))) [] in
  fst (WebApp.browse req n)
  = Template "browse.html" [("error", JStr "API Error: 422")].
Proof.
  intros w req n.
  apply (browse_shows_rejected_page w req n 0).
  - reflexivity.
  - lia.
  - apply (Wire.answers_invalid Wire.json_of_castings).
Defined.

(** X19. Export, end to end: when the Data Service behind the lookup URL
    answers as [lookup_casting] does over a store that answers, the export
    of a key the table holds is a download named tesla_casting_<key>.json
    whose JSON is the stored record, and the export of a key it does not
    hold is the text "Error: Casting not found" with status 404. *)
Theorem export_end_to_end
    (w : DataService.world) (n : net) (key : string) :
  DataService.healthy w -> unique_keys (DataService.table w) ->
  Wire.answers Wire.json_of_casting
    (fst (DataService.route_lookup key w))
    (service n ("http://localhost:8000/lookup/" ++ key)) ->
  (forall r, In r (DataService.table w) -> casting r = key ->
     fst (WebApp.export key n)
     = Attachment (Wire.json_of_casting (full r))
         [("Content-Disposition",
           "attachment; filename=tesla_casting_" ++ key ++ ".json");
          ("Content-type", "application/json")])
  /\ (~ In key (keys (DataService.table w)) ->
      fst (WebApp.export key n) = Plain "Error: Casting not found" 404).
Proof.
  intros Hw Hu Hans. rewrite WebMore.export_outcome.
  rewrite (ServiceFacts.lookup_healthy w _ Hw) in Hans. cbn [fst] in Hans.
  split.
  - intros r Hin Hk. rewrite <- Hk in Hans.
    rewrite ServiceFacts.find_unique in Hans by assumption.
    apply answers_return_inv in Hans. rewrite <- Hk, Hans. reflexivity.
  - intros Hn. rewrite ServiceFacts.find_absent in Hans by assumption.
    apply answers_http_inv in Hans. rewrite Hans. reflexivity.
Qed.

Lemma export_end_to_end_witness :
  let w := DataService.serving demo in
  let n := mk_net (fun _ => Response 404
                     (Json (JDict [("detail", JStr "Casting not found")]))) [] in
  (forall r, In r (DataService.table w) -> casting r = "9999999" ->
     fst (WebApp.export "9999999" n)
     = Attachment (Wire.json_of_casting (full r))
         [("Content-Disposition",
           "attachment; filename=tesla_casting_" ++ "9999999" ++ ".json");
          ("Content-type", "application/json")])
  /\ (~ In "9999999" (keys (DataService.table w)) ->
      fst (WebApp.export "9999999" n) = Plain "Error: Casting not found" 404).
Proof.
  intros w n.
  apply (export_end_to_end w n "9999999").
  - apply ServiceFacts.serving_healthy.
  - apply ServiceFacts.demo_unique.
  - apply (Wire.answers_http Wire.json_of_casting).
Defined.

(** X20. Search, end to end, second copy: when the Data Service behind the
    search URL answers as [search_castings] does over a store that answers,
    a submitted query gets search.html with the variables results, query
    and count: the matching records in key order, the query as typed and
    their number. *)
Theorem src_search_end_to_end
    (w : DataService.world) (req : request) (n : net) (query : string) :
  DataService.healthy w ->
  method req = "POST" -> get (form req) "query" = Some query -> query <> "" ->
  Wire.answers Wire.json_of_search
    (fst (DataService.route_search (Some query) w))
    (service n ("http://localhost:8000/search?q=" ++ query)) ->
  let pat := "%" ++ query ++ "%" in
  let hits := filter (like_row pat pat pat pat)
                (order_by_casting (DataService.table w)) in
  fst (SrcWebApp.search req n)
  = Template "search.html"
      [("results", JList (map Wire.json_of_casting (map full hits)));
       ("query", JStr query);
       ("count", JInt (Z.of_nat (List.length hits)))].
Proof.
  intros Hw Hm Hq Hne Hans pat hits.
  rewrite (WebMore.src_search_outcome req n query Hm Hq Hne).
  rewrite ServiceMore.route_search_healthy in Hans by assumption.
  cbn [fst] in Hans. apply answers_return_inv in Hans. rewrite Hans.
  cbn [Z.eqb Pos.eqb]. unfold Wire.json_of_search.
  rewrite WebFacts.star_without_keywords by reflexivity. reflexivity.
Qed.

Lemma src_search_end_to_end_witness :
  let w := DataService.serving demo in
  let req := mk_request "POST" [("query", "zzz")] [] in
  let n := mk_net (fun _ => Response 200
                     (Json (Wire.json_of_search
                              {| DataService.r_results := [];
                                 DataService.r_query := "zzz";
                                 DataService.r_count := 0 |}))) [] in
  let pat := "%" ++ "zzz" ++ "%" in
  let hits := filter (like_row pat pat pat pat)
                (order_by_casting (DataService.table w)) in
  fst (SrcWebApp.search req n)
  = Template "search.html"
      [("results", JList (map Wire.json_of_casting (map full hits)));
       ("query", JStr "zzz");
       ("count", JInt (Z.of_nat (List.length hits)))].
Proof.
  intros w req n.
  apply (src_search_end_to_end w req n "zzz").
  - apply ServiceFacts.serving_healthy.
  - reflexivity.
  - reflexivity.
  - discriminate.
  - apply (Wire.answers_return Wire.json_of_search).
Defined.

(** X21. Search, end to end, first copy: every search the Data Service
    answers with success ends in TypeError. The answer of [search_castings]
    carries the key query, the view passes query=query beside it, and the
    call of render_template raises before anything is rendered. *)
Theorem search_success_raises_type_error
    (w : DataService.world) (req : request) (n : net) (query : string)
    (resp : DataService.search_response) :
  method req = "POST" -> get (form req) "query" = Some query -> query <> "" ->
  fst (DataService.route_search (Some query) w) = DataService.Return resp ->
  Wire.answers Wire.json_of_search
    (fst (DataService.route_search (Some query) w))
    (service n ("http://localhost:8000/search?q=" ++ query)) ->
  fst (WebApp.search req n)
  = Uncaught (TypeError "got multiple values for keyword argument 'query'").
Proof.
  intros Hm Hq Hne Hresp Hans.
  rewrite (WebMore.search_outcome req n query Hm Hq Hne).
  rewrite Hresp in Hans. apply answers_return_inv in Hans. rewrite Hans.
  reflexivity.
Qed.

Lemma search_success_raises_type_error_witness :
  let w := DataService.serving demo in
  let req := mk_request "POST" [("query", "zzz")] [] in
  let n := mk_net (fun _ => Response 200
                     (Json (Wire.json_of_search
                              {| DataService.r_results := [];
                                 DataService.r_query := "zzz";
                                 DataService.r_count := 0 |}))) [] in
  fst (WebApp.search req n)
  = Uncaught (TypeError "got multiple values for keyword argument 'query'").
Proof.
  intros w req n.
  apply (search_success_raises_type_error w req n "zzz"
           {| DataService.r_results := [];
              DataService.r_query := "zzz";
              DataService.r_count := 0 |}).
  - reflexivity.
  - reflexivity.
  - discriminate.
  - reflexivity.
  - apply (Wire.answers_return Wire.json_of_search).
Defined.

End EndToEnd.

(** ** Page numbers as text *)

Module PageFacts.
Import Flask.

Lemma parse_digits_acc (d : Decimal.uint) (acc : positive) :
  parse_digits (NilEmpty.string_of_uint d) (Z.pos acc) true
  = Some (Z.pos (Pos.of_uint_acc d acc)).
Proof.
  revert acc.
  induction d as [|d IH|d IH|d IH|d IH|d IH|d IH|d IH|d IH|d IH|d IH];
    intros acc; [reflexivity|..];
    cbn [NilEmpty.string_of_uint parse_digits Pos.of_uint_acc];
    change (is_digit _) with true; cbv iota;
    rewrite <- IH; f_equal;
    match goal with
    | |- context [digit_value ?c] =>
        let v := eval vm_compute in (digit_value c) in
        change (digit_value c) with v
    end; lia.
Qed.

Lemma parse_digits_uint (d : Decimal.uint) (after_digit : bool) :
  d <> Decimal.Nil \/ after_digit = true ->
  parse_digits (NilEmpty.string_of_uint d) 0 after_digit = Some (Z.of_uint d).
Proof.
  revert after_digit.
  induction d as [|d IH|d IH|d IH|d IH|d IH|d IH|d IH|d IH|d IH|d IH];
    intros after_digit H.
  - destruct H as [H | ->]; [now elim H | reflexivity].
  - cbn [NilEmpty.string_of_uint parse_digits].
    change (is_digit _) with true. cbv iota.
    change (10 * 0 + digit_value "0") with 0.
    rewrite IH by now right. reflexivity.
  - apply (parse_digits_acc d 1).
  - apply (parse_digits_acc d 2).
  - apply (parse_digits_acc d 3).
  - apply (parse_digits_acc d 4).
  - apply (parse_digits_acc d 5).
  - apply (parse_digits_acc d 6).
  - apply (parse_digits_acc d 7).
  - apply (parse_digits_acc d 8).
  - apply (parse_digits_acc d 9).
Qed.

Lemma drop_last_blanks_digits (d : Decimal.uint) :
  drop_last_blanks (NilEmpty.string_of_uint d) = NilEmpty.string_of_uint d.
Proof.
  induction d as [|d IH|d IH|d IH|d IH|d IH|d IH|d IH|d IH|d IH|d IH];
    [reflexivity|..];
    cbn [NilEmpty.string_of_uint drop_last_blanks]; rewrite IH;
    now destruct (NilEmpty.string_of_uint d).
Qed.

Lemma blanks_digits (d : Decimal.uint) :
  drop_last_blanks (skip_blanks (NilEmpty.string_of_uint d))
  = NilEmpty.string_of_uint d.
Proof.
  assert (skip_blanks (NilEmpty.string_of_uint d) = NilEmpty.string_of_uint d)
    as -> by now destruct d.
  apply drop_last_blanks_digits.
Qed.

Lemma blanks_minus_digits (d : Decimal.uint) :
  drop_last_blanks (skip_blanks (String "-" (NilEmpty.string_of_uint d)))
  = String "-" (NilEmpty.string_of_uint d).
Proof.
  cbn [skip_blanks].
  change (is_blank "-") with false. cbv iota.
  cbn [drop_last_blanks]. rewrite drop_last_blanks_digits.
  now destruct (NilEmpty.string_of_uint d).
Qed.

Lemma parse_number_uint (d : Decimal.uint) :
  d <> Decimal.Nil ->
  (count_digits (NilEmpty.string_of_uint d) <= max_str_digits)%nat ->
  parse_number (NilEmpty.string_of_uint d) = Some (Z.of_uint d).
Proof.
  intros Hd Hn. unfold parse_number.
  apply Nat.leb_le in Hn. rewrite Hn.
  apply parse_digits_uint. now left.
Qed.

Lemma py_int_uint (d : Decimal.uint) :
  d <> Decimal.Nil ->
  (count_digits (NilEmpty.string_of_uint d) <= max_str_digits)%nat ->
  py_int (NilEmpty.string_of_uint d) = Some (Z.of_uint d).
Proof.
  intros Hd Hn. unfold py_int. rewrite blanks_digits.
  rewrite <- (parse_number_uint d Hd Hn).
  destruct d; [now elim Hd | reflexivity..].
Qed.

(** [int(str(n))] is [n], for [n] of at most 4300 digits. *)
Lemma py_int_str (n : Z) :
  (count_digits (Text.str_of_int n) <= max_str_digits)%nat ->
  py_int (Text.str_of_int n) = Some n.
Proof.
  unfold Text.str_of_int.
  rewrite <- (DecimalZ.of_to n) at 3.
  destruct n as [|p|p]; simpl Z.to_int.
  - reflexivity.
  - intros Hn. apply py_int_uint; [apply DecimalPos.Unsigned.to_uint_nonnil|].
    exact Hn.
  - cbn [NilEmpty.string_of_int Z.of_int]. intros Hn. unfold py_int.
    rewrite blanks_minus_digits.
    rewrite parse_number_uint;
      [reflexivity | apply DecimalPos.Unsigned.to_uint_nonnil | exact Hn].
Qed.

(** X22. A page number survives the trip through the URL of the front end:
    when the page parameter of a browse request is the decimal text of an
    integer (as Python writes it) of at most 4300 digits, the most that
    int() converts, the one request the view makes asks the Data Service
    for that same page, with limit 20 and a timeout of 10. *)
Theorem browse_requests_the_page_asked (req : request) (n : net) (page : Z) :
  get (args req) "page" = Some (Text.str_of_int page) ->
  (count_digits (Text.str_of_int page) <= max_str_digits)%nat ->
  calls (snd (WebApp.browse req n))
  = (calls n ++ [(("http://localhost:8000/castings?page="
                     ++ Text.str_of_int page ++ "&limit=20")%string, 10)])%list.
Proof.
  intros Hpage Hn. rewrite WebFacts.browse_calls.
  unfold get_int. now rewrite Hpage, py_int_str.
Qed.

Lemma browse_requests_the_page_asked_witness :
  let req := mk_request "GET" [] [("page", "12")] in
  let n := mk_net (fun _ => RequestException "Connection refused") [] in
  calls (snd (WebApp.browse req n))
  = (calls n ++ [(("http://localhost:8000/castings?page="
                     ++ Text.str_of_int 12 ++ "&limit=20")%string, 10)])%list.
Proof.
  intros req n. apply (browse_requests_the_page_asked req n 12).
  - reflexivity.
  - vm_compute. lia.
Defined.

End PageFacts.

(** ** More on pages *)

Module PageMore.
Import Store DataService Spec.

(** An element of a slice sits at a position of the slice. *)
Lemma slice_position {A} (n m : nat) (l : list A) (x : A) :
  In x (firstn n (skipn m l)) ->
  exists k, (m <= k < m + n)%nat /\ nth_error l k = Some x.
Proof.
  intros H. apply In_nth_error in H as [i Hi].
  rewrite nth_error_firstn in Hi.
  destruct (Nat.ltb_spec i n) as [Hlt | Hge]; [|discriminate].
  rewrite nth_error_skipn in Hi.
  exists (m + i)%nat. split; [lia | assumption].
Qed.

(** X23. No casting shows on two pages: over a store that answers and whose
    keys are unique, the lists returned for two different valid pages of the
    same limit have no key in common. *)
Theorem pages_share_no_casting
    (w : world) (limit page1 page2 : Z)
    (resp1 resp2 : castings_response) (s1 s2 : summary_dict) :
  healthy w -> unique_keys (table w) -> 1 <= limit <= 100 ->
  1 <= page1 -> 1 <= page2 -> page1 <> page2 ->
  (page1 - 1) * limit <= max_int64 -> (page2 - 1) * limit <= max_int64 ->
  fst (route_castings (Some page1) (Some limit) w) = Return resp1 ->
  fst (route_castings (Some page2) (Some limit) w) = Return resp2 ->
  In s1 (r_castings resp1) -> In s2 (r_castings resp2) ->
  s_casting s1 <> s_casting s2.
Proof.
  intros H Hu Hl Hp1 Hp2 Hne Ho1 Ho2 Hr1 Hr2 Hs1 Hs2 Heq.
  rewrite ServiceFacts.castings_page in Hr1, Hr2 by assumption.
  cbn [fst] in Hr1, Hr2. injection Hr1 as <-. injection Hr2 as <-.
  cbn [r_castings] in Hs1, Hs2.
  apply in_map_iff in Hs1 as (r1 & <- & Hin1).
  apply in_map_iff in Hs2 as (r2 & <- & Hin2).
  apply slice_position in Hin1 as (k1 & Hk1 & Hn1).
  apply slice_position in Hin2 as (k2 & Hk2 & Hn2).
  injection Heq as Hkey.
  pose proof (StoreFacts.order_keys_nodup _ Hu) as Hnd.
  unfold unique_keys, keys in Hnd.
  rewrite NoDup_nth_error in Hnd.
  assert (k1 = k2) as Hk.
  { apply Hnd.
    - rewrite length_map. apply nth_error_Some. now rewrite Hn1.
    - rewrite !nth_error_map, Hn1, Hn2. simpl. now rewrite Hkey. }
  subst k2.
  rewrite !Z2Nat.inj_mul, !Z2Nat.inj_sub in Hk1, Hk2 by lia.
  change (Z.to_nat 1) with 1%nat in Hk1, Hk2.
  set (a := (Z.to_nat page1 - 1)%nat) in *.
  set (b := (Z.to_nat page2 - 1)%nat) in *.
  set (L := Z.to_nat limit) in *.
  assert (a <> b) as Hab by (unfold a, b; lia).
  destruct (Nat.lt_total a b) as [Hlt | [Heq | Hgt]]; [| contradiction |].
  - assert ((a + 1) * L <= b * L)%nat by (apply Nat.mul_le_mono_r; lia). lia.
  - assert ((b + 1) * L <= a * L)%nat by (apply Nat.mul_le_mono_r; lia). lia.
Qed.

Lemma pages_share_no_casting_witness :
  s_casting (summary (mk_record "1002633" "2016-2018" "rear Drive" "100kW"
                                "200kW" "Fe" None))
  <> s_casting (summary (mk_record "1120980" "2019" "XYZ" "200kW" "350kW" "Al"
                                   (Some "Front unit"))).
Proof.
  apply (pages_share_no_casting (serving demo) 2 1 2
           {| r_castings := map summary (firstn 2 (order_by_casting demo));
              r_total := 3; r_page := 1; r_limit := 2; r_total_pages := 2 |}
           {| r_castings := map summary (skipn 2 (order_by_casting demo));
              r_total := 3; r_page := 2; r_limit := 2; r_total_pages := 2 |}).
  - apply ServiceFacts.serving_healthy.
  - apply ServiceFacts.demo_unique.
  - lia.
  - lia.
  - lia.
  - lia.
  - unfold max_int64. lia.
  - unfold max_int64. lia.
  - reflexivity.
  - reflexivity.
  - now left.
  - now left.
Defined.

(** X24. A page holds as many rows as are left, up to the limit: over a
    store that answers, the list of a valid page has
    min(limit, total - (page-1)*limit) entries, and none when the offset
    is past the total. *)
Theorem page_holds_what_is_left (w : world) (page limit : Z)
    (resp : castings_response) :
  healthy w -> 1 <= page -> 1 <= limit <= 100 ->
  (page - 1) * limit <= max_int64 ->
  fst (route_castings (Some page) (Some limit) w) = Return resp ->
  Z.of_nat (List.length (r_castings resp))
  = Z.max 0 (Z.min limit (r_total resp - (page - 1) * limit)).
Proof.
  intros H Hp Hl Ho Hr.
  rewrite ServiceFacts.castings_page in Hr by assumption.
  cbn [fst] in Hr. injection Hr as <-. cbn [r_castings r_total].
  rewrite length_map, length_firstn, length_skipn, StoreFacts.order_length.
  assert (0 <= (page - 1) * limit) by nia.
  lia.
Qed.

Lemma page_holds_what_is_left_witness :
  Z.of_nat (List.length (map summary (skipn 2 (order_by_casting demo))))
  = Z.max 0 (Z.min 2 (3 - (2 - 1) * 2)).
Proof.
  apply (page_holds_what_is_left (serving demo) 2 2
           {| r_castings := map summary (skipn 2 (order_by_casting demo));
              r_total := 3; r_page := 2; r_limit := 2; r_total_pages := 2 |}).
  - apply ServiceFacts.serving_healthy.
  - lia.
  - lia.
  - unfold max_int64. lia.
  - reflexivity.
Defined.

End PageMore.
